(** * django-registration: the activation-key lifecycle

    A shallow embedding of [registration/models.py] and
    [registration/backends.py], and the properties of the activation-key
    life cycle (generation, expiry, validation, one-time consumption,
    purge of expired accounts, activation-key authentication).

    Conventions of the embedding:
    - a Python text value is the list of its code points ([text]);
    - a [datetime] is the number of microseconds since [datetime.min]
      (0001-01-01 00:00:00), a [timedelta] a signed number of
      microseconds; building a [timedelta] of more than 999999999 days
      and an addition that leaves the range of [datetime] raise
      [OverflowError], as in Python;
    - the database is two tables kept in primary-key order; a foreign key
      is the primary key of the row it points to;
    - a manager method is a computation over the world (database, log of
      the queries sent through the [RegistrationProfile] manager, mail
      outbox) that returns a value or raises; what was written before an
      exception stays written;
    - [settings] and the reading of the clock are an environment of the
      call: one manager call sees one clock reading. *)

From Stdlib Require Import List ZArith NArith Lia Bool String Ascii.
From Stdlib Require Import DecimalString.
Import ListNotations.

Local Open Scope Z_scope.

(* ================================================================== *)
(** * Definitions *)
(* ================================================================== *)

(** ** Text *)

Definition text := list N.

Definition codes (s : string) : text :=
  map N_of_ascii (list_ascii_of_string s).

Fixpoint text_eqb (a b : text) : bool :=
  match a, b with
  | [], [] => true
  | x :: a', y :: b' => N.eqb x y && text_eqb a' b'
  | _, _ => false
  end.

Definition LF : N := 10%N.
Definition CR : N := 13%N.

(** ** Regular expressions

    The fragment of Python's [re] that [SHA1_RE] is written in: the
    anchors [^] and [$] (without [re.MULTILINE]) and a character class
    repeated a fixed number of times. *)

Inductive re_item : Type :=
| Bol                                              (* ^ *)
| Eol                                              (* $ *)
| ClassRep (ranges : list (N * N)) (count : nat).  (* [x-y...]{count} *)

Definition regex := list re_item.

Definition in_class (ranges : list (N * N)) (c : N) : bool :=
  existsb (fun r => N.leb (fst r) c && N.leb c (snd r)) ranges.

Fixpoint take_class (ranges : list (N * N)) (count : nat) (s : text)
  : option text :=
  match count with
  | O => Some s
  | S count' =>
      match s with
      | c :: s' => if in_class ranges c then take_class ranges count' s'
                   else None
      | [] => None
      end
  end.

(** [$] matches at the end of the subject and also just before a line
    feed that is the last character of the subject. *)
Definition at_eol (s : text) : bool :=
  match s with
  | [] => true
  | [c] => N.eqb c LF
  | _ => false
  end.

Fixpoint match_here (r : regex) (at_start : bool) (s : text) : bool :=
  match r with
  | [] => true
  | Bol :: r' => at_start && match_here r' at_start s
  | Eol :: r' => at_eol s && match_here r' at_start s
  | ClassRep ranges count :: r' =>
      match take_class ranges count s with
      | Some s' => match_here r' (at_start && Nat.eqb count 0) s'
      | None => false
      end
  end.

Fixpoint search_from (r : regex) (at_start : bool) (s : text) : bool :=
  match_here r at_start s ||
  match s with
  | [] => false
  | _ :: s' => search_from r false s'
  end.

(** [pattern.search(s)], read as a truth value. *)
Definition re_search (r : regex) (s : text) : bool := search_from r true s.

(** [SHA1_RE = re.compile('^[a-f0-9]{40}$')] *)
Definition SHA1_RE : regex :=
  [Bol; ClassRep [(97%N, 102%N); (48%N, 57%N)] 40; Eol].

(** ** Dates *)

Definition datetime := Z.
Definition timedelta := Z.

Definition microseconds_per_day : Z := 86400 * 1000000.

(** [datetime.max] is the last microsecond of 9999-12-31, day 3652059
    of the calendar; a [datetime] is a count below [datetime_end]. *)
Definition datetime_end : Z := 3652059 * microseconds_per_day.

Definition is_datetime (t : Z) : bool := (0 <=? t) && (t <? datetime_end).

(** The largest number of days a [timedelta] holds. *)
Definition timedelta_max_days : Z := 999999999.

(** ** Rows *)

Record User : Type := mkUser {
  user_id : nat;
  username : text;
  first_name : text;
  last_name : text;
  email : text;
  password : text;
  is_active : bool;
  date_joined : datetime
}.

Record RegistrationProfile : Type := mkProfile {
  profile_id : nat;
  profile_user_id : nat;          (* user = OneToOneField(..., CASCADE) *)
  activation_key : text
}.

Definition set_is_active (u : User) (b : bool) : User :=
  mkUser (user_id u) (username u) (first_name u) (last_name u) (email u)
         (password u) b (date_joined u).

Definition set_names (u : User) (fn ln : text) : User :=
  mkUser (user_id u) (username u) fn ln (email u)
         (password u) (is_active u) (date_joined u).

Definition set_activation_key (p : RegistrationProfile) (k : text)
  : RegistrationProfile :=
  mkProfile (profile_id p) (profile_user_id p) k.

(** [RegistrationProfile.ACTIVATED = u"ALREADY_ACTIVATED"] *)
Definition ACTIVATED : text := Eval cbv in codes "ALREADY_ACTIVATED".

(** ** The world a manager call runs in *)

Record Store : Type := mkStore {
  users : list User;
  profiles : list RegistrationProfile
}.

Inductive query : Type :=
| QGetKey (k : text)        (* objects.get(activation_key=k) *)
| QGetUser (uid : nat)      (* objects.get(user=u) *)
| QFilterKey (k : text)     (* objects.filter(activation_key=k) *)
| QAll.                     (* objects.all() *)

Record Mail : Type := mkMail {
  mail_subject : text;
  mail_message : text;
  mail_from : text;
  mail_to : list text
}.

Record World : Type := mkWorld {
  store : Store;
  queries : list query;       (* oldest first *)
  outbox : list Mail          (* oldest first *)
}.

Record Settings : Type := mkSettings {
  ACCOUNT_ACTIVATION_DAYS : Z;
  DEFAULT_FROM_EMAIL : text
}.

Record Env : Type := mkEnv {
  settings : Settings;
  now : datetime              (* datetime.datetime.now() *)
}.

Inductive exn : Type :=
| DoesNotExist
| MultipleObjectsReturned
| IntegrityError
| IndexError
| UnicodeEncodeError
| OverflowError
| NameError (name : string).

Inductive outcome (A : Type) : Type :=
| Ret (a : A)
| Raise (e : exn).

Arguments Ret {A} a.
Arguments Raise {A} e.

Definition M (A : Type) : Type := Env -> World -> outcome A * World.

Definition ret {A} (a : A) : M A := fun _ w => (Ret a, w).

Definition bind {A B} (m : M A) (k : A -> M B) : M B :=
  fun e w =>
    match m e w with
    | (Ret a, w') => k a e w'
    | (Raise x, w') => (Raise x, w')
    end.

Definition raise {A} (x : exn) : M A := fun _ w => (Raise x, w).

Declare Scope orm_scope.
Delimit Scope orm_scope with orm.

Notation "x <- m ;; k" := (bind m (fun x => k))
  (at level 100, m at next level, right associativity) : orm_scope.
Notation "m ;; k" := (bind m (fun _ => k))
  (at level 100, right associativity) : orm_scope.

Local Open Scope orm_scope.

Definition ask : M Env := fun e w => (Ret e, w).
Definition get_world : M World := fun _ w => (Ret w, w).
Definition put_store (s : Store) : M unit :=
  fun _ w => (Ret tt, mkWorld s (queries w) (outbox w)).
Definition logged (w : World) (q : query) : World :=
  mkWorld (store w) (queries w ++ [q]) (outbox w).
Definition log_query (q : query) : M unit :=
  fun _ w => (Ret tt, logged w q).

(** [try: m  except DoesNotExist: h] *)
Definition except_DoesNotExist {A} (m : M A) (h : M A) : M A :=
  fun e w =>
    match m e w with
    | (Raise DoesNotExist, w') => h e w'
    | r => r
    end.

(** ** The object-relational layer *)

(** A [get] returns the one matching row and raises when there is none
    or more than one. *)
Definition the_one {A} (rows : list A) : M A :=
  match rows with
  | [] => raise DoesNotExist
  | [r] => ret r
  | _ => raise MultipleObjectsReturned
  end.

Definition has_key (k : text) (p : RegistrationProfile) : bool :=
  text_eqb (activation_key p) k.

Definition has_user (uid : nat) (p : RegistrationProfile) : bool :=
  Nat.eqb (profile_user_id p) uid.

Definition has_id (uid : nat) (u : User) : bool := Nat.eqb (user_id u) uid.

(** [self.get(activation_key=k)] *)
Definition get_by_key (k : text) : M RegistrationProfile :=
  log_query (QGetKey k) ;;
  w <- get_world ;;
  the_one (filter (has_key k) (profiles (store w))).

(** [self.filter(activation_key=k)], evaluated *)
Definition filter_by_key (k : text) : M (list RegistrationProfile) :=
  log_query (QFilterKey k) ;;
  w <- get_world ;;
  ret (filter (has_key k) (profiles (store w))).

(** [self.all()], evaluated *)
Definition all_profiles : M (list RegistrationProfile) :=
  log_query QAll ;;
  w <- get_world ;;
  ret (profiles (store w)).

(** [profile.user]: the row the foreign key points to *)
Definition profile_user (p : RegistrationProfile) : M User :=
  w <- get_world ;;
  the_one (filter (has_id (profile_user_id p)) (users (store w))).

Fixpoint update_row {A} (same : A -> bool) (r : A) (rows : list A)
  : list A :=
  match rows with
  | [] => [r]
  | x :: rows' => if same x then r :: rows' else x :: update_row same r rows'
  end.

(** [user.save()] of a row that has a primary key: update, or insert
    when no row has that key. *)
Definition save_user (u : User) : M unit :=
  w <- get_world ;;
  put_store (mkStore (update_row (has_id (user_id u)) u (users (store w)))
                     (profiles (store w))).

(** [profile.save()] *)
Definition save_profile (p : RegistrationProfile) : M unit :=
  w <- get_world ;;
  put_store (mkStore (users (store w))
                     (update_row (fun x => Nat.eqb (profile_id x) (profile_id p))
                                 p (profiles (store w)))).

(** [user.delete()]: the rows that point to the user go with it
    ([on_delete=models.CASCADE]). *)
Definition delete_user (u : User) : M unit :=
  w <- get_world ;;
  put_store (mkStore (filter (fun x => negb (has_id (user_id u) x))
                             (users (store w)))
                     (filter (fun p => negb (has_user (user_id u) p))
                             (profiles (store w)))).

(** ** [RegistrationProfile] *)

(** [get_has_activated] *)
Definition get_has_activated (p : RegistrationProfile) : bool :=
  text_eqb (activation_key p) ACTIVATED.

(** [datetime.timedelta(days=d)] *)
Definition timedelta_days (d : Z) : M timedelta :=
  if Z.abs d <=? timedelta_max_days then ret (d * microseconds_per_day)
  else raise OverflowError.

(** [t + d] for a [datetime] and a [timedelta] *)
Definition datetime_add (t : datetime) (d : timedelta) : M datetime :=
  if is_datetime (t + d) then ret (t + d) else raise OverflowError.

(** [activation_key_expired]: the [timedelta] is built first; [or]
    evaluates its right operand, and so follows the foreign key and adds
    the dates, only when the left one is false. *)
Definition activation_key_expired (p : RegistrationProfile) : M bool :=
  e <- ask ;;
  if 0 <? ACCOUNT_ACTIVATION_DAYS (settings e) then
    expiration_date <- timedelta_days (ACCOUNT_ACTIVATION_DAYS (settings e)) ;;
    if text_eqb (activation_key p) ACTIVATED then ret true
    else
      u <- profile_user p ;;
      deadline <- datetime_add (date_joined u) expiration_date ;;
      ret (deadline <=? now e)
  else ret (text_eqb (activation_key p) ACTIVATED).

(** ** [RegistrationManager] *)

(** What [activate_user] returns: [False] or the activated user. *)
Inductive activation : Type :=
| PyFalse
| Activated (u : User).

Definition callback := User -> M unit.

Definition activate_user (key : text) (cb : option callback)
  : M activation :=
  if re_search SHA1_RE key then
    found <- except_DoesNotExist
               (p <- get_by_key key ;; ret (Some p))
               (ret None) ;;
    match found with
    | None => ret PyFalse
    | Some profile =>
        expired <- activation_key_expired profile ;;
        if negb expired then
          user <- profile_user profile ;;
          let user := set_is_active user true in
          save_user user ;;
          save_profile (set_activation_key profile ACTIVATED) ;;
          match cb with
          | Some f => f user
          | None => ret tt
          end ;;
          ret (Activated user)
        else ret PyFalse
    end
  else ret PyFalse.

(** [delete_expired_users]: the loop runs over the rows [self.all()]
    returned when the loop started. *)
Fixpoint delete_expired_loop (rows : list RegistrationProfile) : M unit :=
  match rows with
  | [] => ret tt
  | profile :: rows' =>
      expired <- activation_key_expired profile ;;
      (if expired then
         user <- profile_user profile ;;
         if negb (is_active user) then delete_user user else ret tt
       else ret tt) ;;
      delete_expired_loop rows'
  end.

Definition delete_expired_users : M unit :=
  rows <- all_profiles ;;
  delete_expired_loop rows.

(** ** [RegistrationBackend] *)

(** [authenticate]: [len(profiles)] evaluates the query set, and
    [profiles[0]] then reads its first row. *)
Definition authenticate (key : option text) : M (option User) :=
  match key with
  | None => ret None
  | Some k =>
      rows <- filter_by_key k ;;
      if Nat.eqb (List.length rows) 0 then ret None
      else
        match rows with
        | profile :: _ => u <- profile_user profile ;; ret (Some u)
        | [] => raise IndexError
        end
  end.

(** ** Text operations used by the mailer *)

(** The line boundaries of [unicode.splitlines]. *)
Definition is_linebreak (c : N) : bool :=
  existsb (N.eqb c)
    [10; 11; 12; 13; 28; 29; 30; 133; 8232; 8233]%N.

(** [s.splitlines()]: the lines without their boundaries; a carriage
    return followed by a line feed is one boundary; no empty last line. *)
Fixpoint splitlines_from (line : text) (s : text) : list text :=
  match s with
  | [] => match line with [] => [] | _ => [rev line] end
  | c :: s' =>
      if is_linebreak c then
        rev line ::
        (if N.eqb c CR then
           match s' with
           | d :: s'' => if N.eqb d LF then splitlines_from [] s''
                         else splitlines_from [] s'
           | [] => splitlines_from [] s'
           end
         else splitlines_from [] s')
      else splitlines_from (c :: line) s'
  end.

Definition splitlines (s : text) : list text := splitlines_from [] s.

(** [''.join(parts)] *)
Definition join_empty (parts : list text) : text := List.concat parts.

(** The white space of [unicode.strip]. *)
Definition is_space (c : N) : bool :=
  in_class [(9, 13); (28, 32); (133, 133); (160, 160); (5760, 5760);
            (8192, 8202); (8232, 8233); (8239, 8239); (8287, 8287);
            (12288, 12288)]%N c.

Fixpoint lstrip (s : text) : text :=
  match s with
  | c :: s' => if is_space c then lstrip s' else s
  | [] => []
  end.

(** [s.strip()] *)
Definition strip (s : text) : text := rev (lstrip (rev (lstrip s))).

(** ** Template contexts *)

Record Site : Type := mkSite {
  site_domain : text;
  site_name : text
}.

Inductive ctx_value : Type :=
| VText (t : text)
| VInt (z : Z)
| VUser (u : User)
| VSite (s : Site).

Definition context := list (string * ctx_value).

(** [d[k] = v] *)
Fixpoint dict_set (k : string) (v : ctx_value) (d : context) : context :=
  match d with
  | [] => [(k, v)]
  | (k', v') :: d' =>
      if String.eqb k' k then (k, v) :: d' else (k', v') :: dict_set k v d'
  end.

(** [d.update({...})] *)
Definition dict_update (d : context) (items : context) : context :=
  fold_left (fun acc kv => dict_set (fst kv) (snd kv) acc) items d.

(** ** SHA-1

    [hashlib.sha1] on a byte string; bytes and 32-bit words are numbers
    in [Z]. *)

Definition w32 (x : Z) : Z := x mod 2 ^ 32.

Definition rotl32 (n : Z) (x : Z) : Z :=
  w32 (Z.lor (Z.shiftl x n) (Z.shiftr x (32 - n))).

Fixpoint chunk {A} (size : nat) (fuel : nat) (l : list A) : list (list A) :=
  match fuel with
  | O => []
  | S fuel' =>
      match l with
      | [] => []
      | _ => firstn size l :: chunk size fuel' (skipn size l)
      end
  end.

Definition be_number (bs : list Z) : Z :=
  fold_left (fun acc b => acc * 256 + b) bs 0.

Fixpoint be_bytes (n : nat) (x : Z) : list Z :=
  match n with
  | O => []
  | S n' => be_bytes n' (x / 256) ++ [x mod 256]
  end.

Definition sha1_pad (msg : list Z) : list Z :=
  let len := Z.of_nat (List.length msg) in
  let zeros := Z.to_nat ((55 - len) mod 64) in
  msg ++ [128] ++ repeat 0 zeros ++ be_bytes 8 (8 * len).

Fixpoint sha1_expand (n : nat) (w : list Z) : list Z :=  (* newest first *)
  match n with
  | O => w
  | S n' =>
      let x := Z.lxor (nth 2 w 0)
                 (Z.lxor (nth 7 w 0) (Z.lxor (nth 13 w 0) (nth 15 w 0))) in
      sha1_expand n' (rotl32 1 x :: w)
  end.

Definition sha1_state : Type := Z * Z * Z * Z * Z.

Definition sha1_round (st : sha1_state) (t : nat) (w : Z) : sha1_state :=
  let '(a, b, c, d, e) := st in
  let not_b := Z.lxor b 4294967295 in
  let '(f, k) :=
    if Nat.ltb t 20 then (Z.lor (Z.land b c) (Z.land not_b d), 1518500249)
    else if Nat.ltb t 40 then (Z.lxor b (Z.lxor c d), 1859775393)
    else if Nat.ltb t 60 then
      (Z.lor (Z.land b c) (Z.lor (Z.land b d) (Z.land c d)), 2400959708)
    else (Z.lxor b (Z.lxor c d), 3395469782) in
  (w32 (rotl32 5 a + f + e + k + w), a, rotl32 30 b, c, d).

Fixpoint sha1_rounds (st : sha1_state) (t : nat) (ws : list Z) : sha1_state :=
  match ws with
  | [] => st
  | w :: ws' => sha1_rounds (sha1_round st t w) (S t) ws'
  end.

Definition sha1_block (h : sha1_state) (block : list Z) : sha1_state :=
  let w16 := map be_number (chunk 4 16 block) in
  let ws := rev (sha1_expand 64 (rev w16)) in
  let '(h0, h1, h2, h3, h4) := h in
  let '(a, b, c, d, e) := sha1_rounds h 0 ws in
  (w32 (h0 + a), w32 (h1 + b), w32 (h2 + c), w32 (h3 + d), w32 (h4 + e)).

Definition sha1_init : sha1_state :=
  (1732584193, 4023233417, 2562383102, 271733878, 3285377520).

(** [sha1(msg).digest()] *)
Definition sha1_digest (msg : list Z) : list Z :=
  let padded := sha1_pad msg in
  let blocks := chunk 64 (List.length padded) padded in
  let '(h0, h1, h2, h3, h4) := fold_left sha1_block blocks sha1_init in
  be_bytes 4 h0 ++ be_bytes 4 h1 ++ be_bytes 4 h2 ++ be_bytes 4 h3
    ++ be_bytes 4 h4.

Definition hex_digits : text := Eval cbv in codes "0123456789abcdef".

Definition hex_digit (d : Z) : N := nth (Z.to_nat (d mod 16)) hex_digits 48%N.

Definition hex_of_byte (b : Z) : text := [hex_digit (b / 16); hex_digit b].

(** [sha1(msg).hexdigest()] *)
Definition sha1_hexdigest (msg : list Z) : text :=
  flat_map hex_of_byte (sha1_digest msg).

(** The implicit ASCII encoding of a text handed to [hashlib]. *)
Fixpoint encode_ascii (t : text) : option (list Z) :=
  match t with
  | [] => Some []
  | c :: t' =>
      if N.ltb c 128 then option_map (cons (Z.of_N c)) (encode_ascii t')
      else None
  end.

(** [sha_constructor(t).hexdigest()] *)
Definition sha_hexdigest (t : text) : M text :=
  match encode_ascii t with
  | Some bytes => ret (sha1_hexdigest bytes)
  | None => raise UnicodeEncodeError
  end.

(** [generate_activation_key(user)]; [rnd] is [str(random.random())]. *)
Definition generate_activation_key (rnd : text) (user : User) : M text :=
  digest <- sha_hexdigest rnd ;;
  let salt := firstn 5 digest in
  sha_hexdigest (salt ++ username user).

(** ** Account creation and the activation mail *)

(** The names bound in the namespace of [models.py] once the module is
    imported: its imports and its top-level definitions. *)
Definition module_globals : list string :=
  ["datetime"; "random"; "re"; "settings"; "models"; "render_to_string";
   "_"; "sha_constructor"; "get_user_model"; "Site"; "SHA1_RE";
   "generate_activation_key"; "RegistrationManager";
   "RegistrationProfile"]%string.

(** Evaluating a global name inside a function body. *)
Definition global_name (globals : list string) (name : string) : M unit :=
  if existsb (String.eqb name) globals then ret tt
  else raise (NameError name).

(** [with transaction.atomic(): body]: what [body] wrote to the database
    is undone when it raises. *)
Definition atomic {A} (body : M A) : M A :=
  fun e w =>
    match body e w with
    | (Raise x, w') => (Raise x, mkWorld (store w) (queries w') (outbox w'))
    | r => r
    end.

Definition next_id (ids : list nat) : nat := S (fold_right Nat.max O ids).

Definition has_username (name : text) (u : User) : bool :=
  text_eqb (username u) name.

(** [self.get(user=user)] *)
Definition get_by_user (u : User) : M RegistrationProfile :=
  log_query (QGetUser (user_id u)) ;;
  w <- get_world ;;
  the_one (filter (has_user (user_id u)) (profiles (store w))).

(** [User.objects.get(username=name)] *)
Definition get_user_by_name (name : text) : M User :=
  w <- get_world ;;
  the_one (filter (has_username name) (users (store w))).

(** [send_mail(subject, message, from_email, recipient_list)] *)
Definition send_mail (subject message from : text) (to : list text)
  : M unit :=
  fun _ w =>
    (Ret tt, mkWorld (store w) (queries w)
                     (outbox w ++ [mkMail subject message from to])).

Definition default_template_body : text :=
  Eval cbv in codes "registration/activation_email.txt".
Definition default_template_subject : text :=
  Eval cbv in codes "registration/activation_email_subject.txt".

(** [if not t or t == '': t = default] *)
Definition template_or (t : option text) (default : text) : text :=
  match t with
  | None => default
  | Some [] => default
  | Some name => name
  end.

(** [if email is None or email.strip() == u'': email = user.email] *)
Definition resolve_email (mail : option text) (user : User) : text :=
  match mail with
  | None => email user
  | Some m => match strip m with [] => email user | _ => m end
  end.

Section Collaborators.

(** The collaborators of the manager: the template engine, the current
    site, and the user model's [create_user] ingredients. *)
Variable render_to_string : text -> context -> text.
Variable current_site : Site.
Variable make_password : text -> text.
Variable normalize_email : text -> text.

(** [self.create(user=user, activation_key=generate_activation_key(user))] *)
Definition create_profile (rnd : text) (user : User)
  : M RegistrationProfile :=
  key <- generate_activation_key rnd user ;;
  w <- get_world ;;
  if existsb (has_user (user_id user)) (profiles (store w))
  then raise IntegrityError
  else
    let p := mkProfile (next_id (map profile_id (profiles (store w))))
                       (user_id user) key in
    put_store (mkStore (users (store w)) (profiles (store w) ++ [p])) ;;
    ret p.

(** [User.objects.create_user(username, email, password)] *)
Definition create_user (name mail pass : text) : M User :=
  e <- ask ;;
  w <- get_world ;;
  if existsb (has_username name) (users (store w))
  then raise IntegrityError
  else
    let u := mkUser (next_id (map user_id (users (store w)))) name [] []
                    (normalize_email mail) (make_password pass) true
                    (now e) in
    put_store (mkStore (users (store w) ++ [u]) (profiles (store w))) ;;
    ret u.

Definition send_activation_email (name : text)
    (extra_mail_context : option context) (mail : option text)
    (template_body template_subject : option text) : M unit :=
  let template_body := template_or template_body default_template_body in
  let template_subject :=
    template_or template_subject default_template_subject in
  user <- get_user_by_name name ;;
  registration_profile <- get_by_user user ;;
  e <- ask ;;
  let context :=
    match extra_mail_context with None => [] | Some d => d end in
  let context :=
    dict_update context
      [("site", VSite current_site); ("user", VUser user)]%string in
  let subject := render_to_string template_subject context in
  let subject := join_empty (splitlines subject) in
  let context :=
    dict_update context
      [("username", VText name);
       ("activation_key", VText (activation_key registration_profile));
       ("expiration_days", VInt (ACCOUNT_ACTIVATION_DAYS (settings e)));
       ("site", VSite current_site)]%string in
  let message := render_to_string template_body context in
  let mail := resolve_email mail user in
  match strip mail with
  | [] => ret tt
  | _ => send_mail subject message (DEFAULT_FROM_EMAIL (settings e)) [mail]
  end.

(** [create_inactive_user]; [globals] is the namespace the body's
    global names are looked up in. *)
Definition create_inactive_user_in (globals : list string) (rnd : text)
    (name pass mail : text) (send_email : bool)
    (profile_callback : option callback)
    (extra_mail_context : option context)
    (first last : text) (template_body template_subject : text)
  : M User :=
  new_user <-
    (global_name globals "transaction" ;;
     atomic (
       new_user <- create_user name mail pass ;;
       let new_user := set_names (set_is_active new_user false) first last in
       save_user new_user ;;
       create_profile rnd new_user ;;
       ret new_user)) ;;
  match profile_callback with
  | Some f => f new_user
  | None => ret tt
  end ;;
  (if send_email then
     send_activation_email name extra_mail_context None
       (Some template_body) (Some template_subject)
   else ret tt) ;;
  ret new_user.

Definition create_inactive_user :=
  create_inactive_user_in module_globals.

End Collaborators.

(** ** The constraints of the schema

    Primary keys are unique, a profile points to an existing user
    (foreign key), and no two profiles point to the same user
    ([OneToOneField]). *)

Fixpoint distinct (l : list nat) : bool :=
  match l with
  | [] => true
  | x :: l' => negb (existsb (Nat.eqb x) l') && distinct l'
  end.

Definition store_ok (s : Store) : bool :=
  distinct (map user_id (users s))
  && distinct (map profile_id (profiles s))
  && distinct (map profile_user_id (profiles s))
  && forallb (fun p => existsb (has_id (profile_user_id p)) (users s))
             (profiles s).

(** ** Vocabulary of the statements *)

(** A lowercase hexadecimal digit: a member of the class [[a-f0-9]]. *)
Definition is_lower_hex (c : N) : bool :=
  in_class [(97%N, 102%N); (48%N, 57%N)] c.

(** The store in which the account [u] is active and the record [p]
    holds the sentinel, all other rows being as in [s]. *)
Definition activated_store (s : Store) (u : User) (p : RegistrationProfile)
  : Store :=
  mkStore
    (map (fun x => if has_id (user_id u) x then set_is_active x true else x)
         (users s))
    (map (fun x => if Nat.eqb (profile_id x) (profile_id p)
                   then set_activation_key x ACTIVATED else x)
         (profiles s)).

(** What a successful activation amounts to, on the fields of the rows:
    [s'] is the store after the account [u] of [s] has been activated
    through its record [p], and [u'] the account returned. The account
    returned is [u] with its active flag set; it is in the store, where
    every row with its primary key is active; the record with the primary
    key of [p] still points to the account and holds the sentinel; the
    rows of the other accounts and the other records are those of [s]. *)
Definition activation_effect (s s' : Store) (u : User)
    (p : RegistrationProfile) (u' : User) : Prop :=
  u' = mkUser (user_id u) (username u) (first_name u) (last_name u)
              (email u) (password u) true (date_joined u)
  /\ is_active u' = true
  /\ In u' (users s')
  /\ (forall x, In x (users s') -> user_id x = user_id u ->
                is_active x = true)
  /\ (forall x, user_id x <> user_id u ->
                (In x (users s') <-> In x (users s)))
  /\ In (mkProfile (profile_id p) (profile_user_id p) ACTIVATED) (profiles s')
  /\ (forall q, In q (profiles s') -> profile_id q = profile_id p ->
                activation_key q = ACTIVATED)
  /\ (forall q, profile_id q <> profile_id p ->
                (In q (profiles s') <-> In q (profiles s))).

(** The value the expiry check computes for the record [p] of the
    account [u]. *)
Definition expired_at (e : Env) (u : User) (p : RegistrationProfile) : bool :=
  text_eqb (activation_key p) ACTIVATED
  || (0 <? ACCOUNT_ACTIVATION_DAYS (settings e))
     && (date_joined u
         + ACCOUNT_ACTIVATION_DAYS (settings e) * microseconds_per_day
         <=? now e).

(** The expiry check of the record [p] of the account [u] raises no
    [OverflowError]: the window is not positive, or it fits a
    [timedelta] and, unless the record holds the sentinel, the end of
    the window is a [datetime]. *)
Definition representable (e : Env) (u : User) (p : RegistrationProfile)
  : bool :=
  (ACCOUNT_ACTIVATION_DAYS (settings e) <=? 0)
  || ((ACCOUNT_ACTIVATION_DAYS (settings e) <=? timedelta_max_days)
      && (text_eqb (activation_key p) ACTIVATED
          || is_datetime (date_joined u
                          + ACCOUNT_ACTIVATION_DAYS (settings e)
                            * microseconds_per_day))).

(** No record of the store makes the expiry check overflow. *)
Definition no_overflow (e : Env) (s : Store) : bool :=
  forallb (fun p =>
             forallb (fun u => negb (has_id (profile_user_id p) u)
                               || representable e u p)
                     (users s))
          (profiles s).

(** [activation_key_expired] returns [True] for [p] in the world [w]. *)
Definition is_expired (e : Env) (w : World) (p : RegistrationProfile) : bool :=
  match fst (activation_key_expired p e w) with
  | Ret b => b
  | Raise _ => false
  end.

(** The account [u] is inactive and has a record that is expired in [w]. *)
Definition purged (e : Env) (w : World) (u : User) : bool :=
  negb (is_active u)
  && existsb (fun p => has_user (user_id u) p && is_expired e w p)
             (profiles (store w)).

(** The account [x] is inactive and one of [rows] is a record of it for
    which the expiry check computes true. *)
Definition doomed (e : Env) (rows : list RegistrationProfile) (x : User)
  : bool :=
  negb (is_active x)
  && existsb (fun p => has_user (user_id x) p && expired_at e x p) rows.

(** The worlds reached from a world by further calls of
    [activate_user key], at any clock readings, under any settings and
    with any callbacks. *)
Inductive replayed (key : text) (w : World) : World -> Prop :=
| replayed_refl : replayed key w w
| replayed_step cb e w' o w'' :
    replayed key w w' ->
    activate_user key cb e w' = (o, w'') ->
    replayed key w w''.

(** ** Sample data *)

Definition sample_key : text :=
  Eval cbv in codes "0123456789abcdef0123456789abcdef01234567".

Definition newline_key : text := sample_key ++ [LF].

Definition alice : User :=
  mkUser 1 (codes "alice") [] [] (codes "alice@example.com") (codes "x")
         false 0.

Definition alice_profile : RegistrationProfile := mkProfile 1 1 sample_key.

Definition sample_world : World :=
  mkWorld (mkStore [alice] [alice_profile]) [] [].

Definition sample_env (days : Z) (clock : datetime) : Env :=
  mkEnv (mkSettings days (codes "webmaster@localhost")) clock.

(** An account whose record has been consumed and which was then
    deactivated by an administrator. *)
Definition consumed_world : World :=
  mkWorld (mkStore [alice] [mkProfile 1 1 ACTIVATED]) [] [].

(** Three accounts created at time 0: [alice], inactive with a pending
    key; [bob], active with a pending key; [carol], inactive with a
    consumed key. *)
Definition bob : User :=
  mkUser 2 (codes "bob") [] [] (codes "bob@example.com") (codes "x") true 0.

Definition carol : User :=
  mkUser 3 (codes "carol") [] [] (codes "  ") (codes "x") false 0.

Definition bob_key : text :=
  Eval cbv in codes "89abcdef0123456789abcdef0123456789abcdef".

Definition three_accounts : World :=
  mkWorld (mkStore [alice; bob; carol]
                   [alice_profile; mkProfile 2 2 bob_key;
                    mkProfile 3 3 ACTIVATED]) [] [].

(** A template engine that renders every template as two lines. *)
Definition two_lines : text -> context -> text :=
  fun _ _ => codes "Activate" ++ [CR; LF] ++ codes "now" ++ [LF].

Definition example_site : Site := mkSite (codes "example.com") (codes "example").

(** ** Further vocabulary *)

(** [d.get(k)] *)
Fixpoint dict_get (k : string) (d : context) : option ctx_value :=
  match d with
  | [] => None
  | (k', v) :: d' => if String.eqb k' k then Some v else dict_get k d'
  end.

(** The context the subject template of [send_activation_email] is
    rendered with, and the one its body template is rendered with. *)
Definition subject_context (site : Site) (extra : option context)
    (user : User) : context :=
  dict_update (match extra with None => [] | Some d => d end)
    [("site", VSite site); ("user", VUser user)]%string.

Definition body_context (site : Site) (extra : option context)
    (user : User) (name key : text) (days : Z) : context :=
  dict_update (subject_context site extra user)
    [("username", VText name); ("activation_key", VText key);
     ("expiration_days", VInt days); ("site", VSite site)]%string.

(** A callback that returns without writing to the database. *)
Definition quiet (cb : option callback) : Prop :=
  forall f, cb = Some f ->
    forall x e w, exists w', f x e w = (Ret tt, w') /\ store w' = store w.

(** ** [forms.py]

    A form method is given the values of [self.cleaned_data] it reads
    and the database; it returns, raises [ValidationError], or lets an
    exception of the layer below pass. Case-insensitive comparison
    ([__iexact]) is the database's and is a parameter. *)

Inductive form_outcome (A : Type) : Type :=
| Cleaned (a : A)
| ValidationError (message : string)
| Passed (e : exn).

Arguments Cleaned {A} a.
Arguments ValidationError {A} message.
Arguments Passed {A} e.

Definition AT_SIGN : N := 64%N.

(** [s.split(sep)] for a separator of one character. *)
Fixpoint split_from (sep : N) (piece : text) (s : text) : list text :=
  match s with
  | [] => [rev piece]
  | c :: s' => if N.eqb c sep then rev piece :: split_from sep [] s'
               else split_from sep (c :: piece) s'
  end.

Definition split (sep : N) (s : text) : list text := split_from sep [] s.

(** ['%i' % n] *)
Definition decimal (n : nat) : text :=
  codes (DecimalString.NilEmpty.string_of_uint (Nat.to_uint n)).

(** ['%s%i' % (s, n)] *)
Definition format_si (s : text) (n : nat) : text := s ++ decimal n.

Section Forms.

Variable iexact : text -> text -> bool.

(** [User.objects.filter(username__iexact=p).count() > 0] *)
Definition username_taken (s : Store) (p : text) : bool :=
  Nat.ltb 0 (List.length (filter (fun u => iexact (username u) p) (users s))).

(** [RegistrationForm.clean_username] (the same in
    [RegistrationFormDoubleEmail]); [name] is
    [self.cleaned_data['username']]. *)
Definition clean_username (s : Store) (name : text) : form_outcome text :=
  match filter (fun u => iexact (username u) name) (users s) with
  | [] => Cleaned name
  | [_] => ValidationError
             "This username is already taken. Please choose another."
  | _ => Passed MultipleObjectsReturned
  end.

(** The loop of [SimpleRegistrationForm.save]: its body assigns
    [newusername], its test reads [new_username]. [None] when the fuel
    runs out. *)
Fixpoint username_loop (fuel : nat) (s : Store) (base : text)
    (counter : nat) (new_username : text) (newusername : option text)
  : option text :=
  match fuel with
  | O => None
  | S fuel' =>
      if username_taken s new_username then
        let counter := S counter in
        let newusername := Some (format_si base counter) in
        username_loop fuel' s base counter new_username newusername
      else Some new_username
  end.

(** The user name [SimpleRegistrationForm.save] passes to
    [create_inactive_user]; [mail] is [self.cleaned_data['email1']]. *)
Definition derive_username (fuel : nat) (s : Store) (mail : text)
  : option text :=
  let name := hd [] (split AT_SIGN mail) in
  let name := firstn 28 name in
  if username_taken s name then
    let counter := 1%nat in
    let new_username := format_si name counter in
    username_loop fuel s name counter new_username None
  else Some name.

End Forms.

(** [RegistrationFormNoFreeEmail.bad_domains] *)
Definition bad_domains : list text :=
  Eval cbv in
    map codes ["aim.com"; "aol.com"; "email.com"; "gmail.com";
               "googlemail.com"; "hotmail.com"; "hushmail.com";
               "msn.com"; "mail.ru"; "mailinator.com"; "live.com"]%string.

(** [RegistrationFormNoFreeEmail.clean_email]; [mail] is
    [self.cleaned_data['email']]. *)
Definition clean_email_no_free (mail : text) : form_outcome text :=
  match split AT_SIGN mail with
  | _ :: email_domain :: _ =>
      if existsb (text_eqb email_domain) bad_domains then
        ValidationError
          "Registration using free email addresses is prohibited. Please supply a different email address."
      else Cleaned mail
  | _ => Passed IndexError
  end.

(** What [delete_expired_users] leaves in the two tables. *)
Definition kept_users (e : Env) (w : World) : list User :=
  filter (fun u => negb (purged e w u)) (users (store w)).

Definition kept_profiles (e : Env) (w : World) : list RegistrationProfile :=
  filter (fun p => negb (existsb (fun u => has_id (profile_user_id p) u
                                           && purged e w u)
                                 (users (store w))))
         (profiles (store w)).

(** Two accounts whose records carry the same key. *)
Definition twins_world : World :=
  mkWorld (mkStore [alice; bob]
                   [alice_profile; mkProfile 2 2 sample_key]) [] [].

(** An account created on 2024-01-01, day 738885 after [datetime.min]. *)
Definition dana : User :=
  mkUser 1 (codes "dana") [] [] (codes "dana@example.com") (codes "x")
         false (738885 * microseconds_per_day).

Definition dana_profile : RegistrationProfile := mkProfile 1 1 sample_key.

Definition dana_world : World :=
  mkWorld (mkStore [dana] [dana_profile]) [] [].

(** An account that has not been given a record yet. *)
Definition unregistered_world : World := mkWorld (mkStore [alice] []) [] [].

Definition sample_random : text := Eval cbv in codes "0.8444218515250481".

(** A case-insensitive comparison for the samples: ASCII letters are
    compared without regard to case. *)
Definition ascii_lower (c : N) : N :=
  if N.leb 65 c && N.leb c 90 then (c + 32)%N else c.

Definition iexact_ascii (a b : text) : bool :=
  text_eqb (map ascii_lower a) (map ascii_lower b).

(** Two accounts whose names differ only by case, and two accounts
    named [alice] and [alice1]. *)
Definition case_twins : Store :=
  mkStore [mkUser 1 (codes "Bob") [] [] [] [] true 0;
           mkUser 2 (codes "bob") [] [] [] [] true 0] [].

Definition alice_and_alice1 : Store :=
  mkStore [alice; mkUser 2 (codes "alice1") [] [] [] [] true 0] [].

(* ================================================================== *)
(** * Properties *)
(* ================================================================== *)

Example ACTIVATED_not_sha1 : re_search SHA1_RE ACTIVATED = false.
Proof. reflexivity. Qed.

(** ** Text and lists *)

Lemma text_eqb_eq (a b : text) : text_eqb a b = true <-> a = b.
Proof.
  revert b; induction a as [|x a IH]; intros [|y b]; simpl;
    try (split; congruence).
  rewrite andb_true_iff, N.eqb_eq, IH. split.
  - intros [-> ->]; reflexivity.
  - intros [= -> ->]; auto.
Qed.

Lemma text_eqb_refl (a : text) : text_eqb a a = true.
Proof. apply text_eqb_eq; reflexivity. Qed.

Lemma text_eqb_neq (a b : text) : text_eqb a b = false <-> a <> b.
Proof.
  destruct (text_eqb a b) eqn:E.
  - apply text_eqb_eq in E. split; [discriminate | contradiction].
  - split; [|reflexivity]. intros _ H. apply text_eqb_eq in H. congruence.
Qed.

Lemma existsb_eqb_In (k : nat) (l : list nat) :
  existsb (Nat.eqb k) l = true <-> In k l.
Proof.
  rewrite existsb_exists. split.
  - intros [x [Hx Hk]]. apply Nat.eqb_eq in Hk. subst; assumption.
  - intros H. exists k. split; [assumption | apply Nat.eqb_refl].
Qed.

Lemma distinct_NoDup (l : list nat) : distinct l = true <-> NoDup l.
Proof.
  induction l as [|x l IH]; simpl.
  - split; [constructor | reflexivity].
  - rewrite andb_true_iff, negb_true_iff, IH. split.
    + intros [Hx Hl]. constructor; [|assumption].
      intros Hin. apply existsb_eqb_In in Hin. congruence.
    + intros H. inversion H as [|? ? Hx Hl]; subst. split; [|assumption].
      destruct (existsb (Nat.eqb x) l) eqn:E; [|reflexivity].
      apply existsb_eqb_In in E. contradiction.
Qed.

Section Keyed.

Context {A : Type} (key : A -> nat).

Lemma filter_key_absent (k : nat) (l : list A) :
  ~ In k (map key l) -> filter (fun y => Nat.eqb (key y) k) l = [].
Proof.
  induction l as [|a l IH]; simpl; intros H; [reflexivity|].
  destruct (Nat.eqb (key a) k) eqn:E.
  - apply Nat.eqb_eq in E. exfalso; apply H; left; assumption.
  - apply IH. intros Hin; apply H; right; assumption.
Qed.

Lemma filter_key_unique (x : A) (l : list A) :
  NoDup (map key l) -> In x l ->
  filter (fun y => Nat.eqb (key y) (key x)) l = [x].
Proof.
  induction l as [|a l IH]; simpl; intros Hnd Hin; [contradiction|].
  inversion Hnd as [|? ? Ha Hl]; subst.
  destruct Hin as [-> | Hin].
  - rewrite Nat.eqb_refl, filter_key_absent; [reflexivity | assumption].
  - destruct (Nat.eqb (key a) (key x)) eqn:E.
    + apply Nat.eqb_eq in E. exfalso; apply Ha. rewrite E.
      apply in_map; assumption.
    + apply IH; assumption.
Qed.

Lemma map_key_absent (k : nat) (g : A -> A) (l : list A) :
  ~ In k (map key l) ->
  map (fun y => if Nat.eqb (key y) k then g y else y) l = l.
Proof.
  induction l as [|a l IH]; simpl; intros H; [reflexivity|].
  destruct (Nat.eqb (key a) k) eqn:E.
  - apply Nat.eqb_eq in E. exfalso; apply H; left; assumption.
  - f_equal. apply IH. intros Hin; apply H; right; assumption.
Qed.

Lemma update_row_unique (x : A) (g : A -> A) (l : list A) :
  NoDup (map key l) -> In x l ->
  update_row (fun y => Nat.eqb (key y) (key x)) (g x) l
  = map (fun y => if Nat.eqb (key y) (key x) then g y else y) l.
Proof.
  induction l as [|a l IH]; simpl; intros Hnd Hin; [contradiction|].
  inversion Hnd as [|? ? Ha Hl]; subst.
  destruct (Nat.eqb (key a) (key x)) eqn:E.
  - apply Nat.eqb_eq in E.
    assert (a = x) as ->.
    { destruct Hin as [|Hin]; [assumption|]. exfalso; apply Ha.
      rewrite E. apply in_map; assumption. }
    rewrite map_key_absent; [reflexivity | assumption].
  - destruct Hin as [-> | Hin]; [rewrite Nat.eqb_refl in E; discriminate|].
    f_equal. apply IH; assumption.
Qed.

End Keyed.

(** ** The schema constraints at work *)

Lemma store_ok_users (s : Store) :
  store_ok s = true -> NoDup (map user_id (users s)).
Proof.
  unfold store_ok. rewrite !andb_true_iff. intros [[[H _] _] _].
  apply distinct_NoDup; assumption.
Qed.

Lemma store_ok_profiles (s : Store) :
  store_ok s = true -> NoDup (map profile_id (profiles s)).
Proof.
  unfold store_ok. rewrite !andb_true_iff. intros [[[_ H] _] _].
  apply distinct_NoDup; assumption.
Qed.

Lemma store_ok_one_to_one (s : Store) :
  store_ok s = true -> NoDup (map profile_user_id (profiles s)).
Proof.
  unfold store_ok. rewrite !andb_true_iff. intros [[_ H] _].
  apply distinct_NoDup; assumption.
Qed.

Lemma store_ok_foreign_key (s : Store) (p : RegistrationProfile) :
  store_ok s = true -> In p (profiles s) ->
  exists u, In u (users s) /\ user_id u = profile_user_id p
            /\ filter (has_id (profile_user_id p)) (users s) = [u].
Proof.
  intros Hok Hin. pose proof (store_ok_users s Hok) as Hnd.
  unfold store_ok in Hok. rewrite !andb_true_iff in Hok.
  destruct Hok as [_ Hfk]. rewrite forallb_forall in Hfk.
  specialize (Hfk p Hin). apply existsb_exists in Hfk.
  destruct Hfk as [u [Hu Hid]]. apply Nat.eqb_eq in Hid.
  exists u. repeat split; try assumption.
  rewrite <- Hid. apply (filter_key_unique user_id); assumption.
Qed.

Lemma filter_has_key_In (k : text) (p : RegistrationProfile) l rest :
  filter (has_key k) l = p :: rest -> In p l /\ activation_key p = k.
Proof.
  intros H.
  assert (Hin : In p (filter (has_key k) l)) by (rewrite H; left; reflexivity).
  apply filter_In in Hin. destruct Hin as [Hin Hk].
  split; [assumption | apply text_eqb_eq; exact Hk].
Qed.

(** ** Running computations step by step *)

Lemma bind_Ret {A B} (m : M A) (k : A -> M B) e w a w' :
  m e w = (Ret a, w') -> bind m k e w = k a e w'.
Proof. intros H. unfold bind. rewrite H. reflexivity. Qed.

Lemma bind_Raise {A B} (m : M A) (k : A -> M B) e w x w' :
  m e w = (Raise x, w') -> bind m k e w = (Raise x, w').
Proof. intros H. unfold bind. rewrite H. reflexivity. Qed.

(** ** Running the primitives *)

Lemma profile_user_resolves (p : RegistrationProfile) (u : User) e w :
  filter (has_id (profile_user_id p)) (users (store w)) = [u] ->
  profile_user p e w = (Ret u, w).
Proof. intros H. unfold profile_user, bind, get_world. rewrite H. reflexivity. Qed.

(** ** The expiry predicate *)

Lemma timedelta_days_run (d : Z) e w :
  timedelta_days d e w
  = (if Z.abs d <=? timedelta_max_days
     then Ret (d * microseconds_per_day) else Raise OverflowError, w).
Proof. unfold timedelta_days. destruct (Z.abs d <=? _); reflexivity. Qed.

Lemma datetime_add_run (t : datetime) (d : timedelta) e w :
  datetime_add t d e w
  = (if is_datetime (t + d) then Ret (t + d) else Raise OverflowError, w).
Proof. unfold datetime_add. destruct (is_datetime _); reflexivity. Qed.

(** What the expiry check does for a record whose account is [u]: its
    value when nothing overflows, and [OverflowError] otherwise. *)
Lemma activation_key_expired_outcome
    (p : RegistrationProfile) (u : User) (e : Env) (w : World) :
  filter (has_id (profile_user_id p)) (users (store w)) = [u] ->
  activation_key_expired p e w
  = (if representable e u p then Ret (expired_at e u p)
     else Raise OverflowError, w).
Proof.
  intros Hu. unfold representable, expired_at, activation_key_expired.
  unfold bind at 1, ask.
  destruct (0 <? ACCOUNT_ACTIVATION_DAYS (settings e)) eqn:Hpos.
  - apply Z.ltb_lt in Hpos.
    rewrite (proj2 (Z.leb_gt _ _) Hpos). cbn [orb andb].
    unfold bind at 1. rewrite timedelta_days_run.
    rewrite (Z.abs_eq _ (Z.lt_le_incl _ _ Hpos)).
    destruct (ACCOUNT_ACTIVATION_DAYS (settings e) <=? timedelta_max_days);
      [|reflexivity].
    cbn [andb].
    destruct (text_eqb (activation_key p) ACTIVATED); [reflexivity|].
    cbn [orb].
    rewrite (bind_Ret _ _ _ _ _ _ (profile_user_resolves p u e w Hu)).
    unfold bind. rewrite datetime_add_run.
    destruct (is_datetime _); reflexivity.
  - apply Z.ltb_ge in Hpos.
    rewrite (proj2 (Z.leb_le _ _) Hpos). cbn [orb andb].
    rewrite orb_false_r. reflexivity.
Qed.

Lemma activation_key_expired_run
    (p : RegistrationProfile) (u : User) (e : Env) (w : World) :
  filter (has_id (profile_user_id p)) (users (store w)) = [u] ->
  representable e u p = true ->
  activation_key_expired p e w
  = (Ret (expired_at e u p), w).
Proof.
  intros Hu Hr. rewrite (activation_key_expired_outcome p u e w Hu), Hr.
  reflexivity.
Qed.

Lemma sentinel_always_expired (p : RegistrationProfile) e w :
  activation_key p = ACTIVATED ->
  ACCOUNT_ACTIVATION_DAYS (settings e) <= timedelta_max_days ->
  activation_key_expired p e w = (Ret true, w).
Proof.
  intros Hk Hd. unfold activation_key_expired. unfold bind at 1, ask.
  rewrite Hk, text_eqb_refl.
  destruct (0 <? ACCOUNT_ACTIVATION_DAYS (settings e)) eqn:Hpos;
    [|reflexivity].
  apply Z.ltb_lt in Hpos. unfold bind. rewrite timedelta_days_run.
  rewrite (Z.abs_eq _ (Z.lt_le_incl _ _ Hpos)).
  rewrite (proj2 (Z.leb_le _ _) Hd). reflexivity.
Qed.

Lemma sentinel_window_overflow (p : RegistrationProfile) e w :
  timedelta_max_days < ACCOUNT_ACTIVATION_DAYS (settings e) ->
  activation_key_expired p e w = (Raise OverflowError, w).
Proof.
  intros Hd. unfold activation_key_expired. unfold bind at 1, ask.
  assert (Hpos : 0 < ACCOUNT_ACTIVATION_DAYS (settings e))
    by (unfold timedelta_max_days in Hd; lia).
  rewrite (proj2 (Z.ltb_lt _ _) Hpos).
  unfold bind. rewrite timedelta_days_run.
  rewrite (Z.abs_eq _ (Z.lt_le_incl _ _ Hpos)).
  rewrite (proj2 (Z.leb_gt _ _) Hd). reflexivity.
Qed.

Lemma sentinel_never_unexpired (p : RegistrationProfile) e w b w' :
  activation_key p = ACTIVATED ->
  activation_key_expired p e w = (Ret b, w') -> b = true.
Proof.
  intros Hk H.
  destruct (Z_le_gt_dec (ACCOUNT_ACTIVATION_DAYS (settings e))
                        timedelta_max_days) as [Hd | Hd].
  - rewrite (sentinel_always_expired p e w Hk Hd) in H. congruence.
  - rewrite (sentinel_window_overflow p e w) in H by lia. discriminate.
Qed.

(** C2 (amended). For every registration record (whose account is
    [u]), every activation window and every current time such that the
    window is not positive, or is at most 999999999 days and (unless the
    token is the sentinel) the creation time plus the window is within
    the range of [datetime], the expiry predicate returns true exactly
    when the token is the sentinel [ALREADY_ACTIVATED], or the window is
    positive and the creation time plus the window in days is at or
    before the current time; with a zero or negative window the record
    expires only by having been activated. For a positive window outside
    these bounds the predicate raises [OverflowError]. The call changes
    nothing. *)
Theorem activation_key_expired_iff
    (p : RegistrationProfile) (u : User) (e : Env) (w : World) :
  filter (has_id (profile_user_id p)) (users (store w)) = [u] ->
  let days := ACCOUNT_ACTIVATION_DAYS (settings e) in
  (representable e u p = true ->
   exists b : bool,
     activation_key_expired p e w = (Ret b, w)
     /\ (b = true <->
         activation_key p = ACTIVATED
         \/ (0 < days
             /\ date_joined u + days * microseconds_per_day <= now e))
     /\ (days <= 0 -> (b = true <-> activation_key p = ACTIVATED)))
  /\ (representable e u p = false ->
      0 < days
      /\ (timedelta_max_days < days
          \/ (activation_key p <> ACTIVATED
              /\ is_datetime (date_joined u + days * microseconds_per_day)
                 = false))
      /\ activation_key_expired p e w = (Raise OverflowError, w)).
Proof.
  intros Hu days. rewrite (activation_key_expired_outcome p u e w Hu).
  split; intros Hr; rewrite Hr.
  - eexists. split; [reflexivity|]. unfold expired_at. fold days.
    rewrite orb_true_iff, andb_true_iff, text_eqb_eq, Z.ltb_lt, Z.leb_le.
    split; [reflexivity|]. intros Hd. split; [|auto].
    intros [H | [H _]]; [assumption | lia].
  - unfold representable in Hr. fold days in Hr.
    apply orb_false_iff in Hr. destruct Hr as [Hpos Hr].
    apply Z.leb_gt in Hpos. split; [exact Hpos|]. split; [|reflexivity].
    apply andb_false_iff in Hr. destruct Hr as [Hr | Hr].
    + left. apply Z.leb_gt. exact Hr.
    + right. apply orb_false_iff in Hr. destruct Hr as [Hk Hrange].
      split; [apply text_eqb_neq; exact Hk | exact Hrange].
Qed.

Lemma get_by_key_run (key : text) e w :
  get_by_key key e w
  = the_one (filter (has_key key) (profiles (store w))) e (logged w (QGetKey key)).
Proof. reflexivity. Qed.

(** ** Activation *)

Lemma save_user_activates (u : User) e w :
  NoDup (map user_id (users (store w))) ->
  In u (users (store w)) ->
  save_user (set_is_active u true) e w
  = (Ret tt,
     mkWorld
       (mkStore
          (map (fun x => if has_id (user_id u) x then set_is_active x true
                         else x) (users (store w)))
          (profiles (store w)))
       (queries w) (outbox w)).
Proof.
  intros Hnd Hu. unfold save_user, bind, get_world, put_store. simpl.
  unfold has_id.
  rewrite (update_row_unique user_id u (fun x => set_is_active x true))
    by assumption.
  reflexivity.
Qed.

Lemma save_profile_consumes (p : RegistrationProfile) e w :
  NoDup (map profile_id (profiles (store w))) ->
  In p (profiles (store w)) ->
  save_profile (set_activation_key p ACTIVATED) e w
  = (Ret tt,
     mkWorld
       (mkStore
          (users (store w))
          (map (fun x => if Nat.eqb (profile_id x) (profile_id p)
                         then set_activation_key x ACTIVATED else x)
               (profiles (store w))))
       (queries w) (outbox w)).
Proof.
  intros Hnd Hp. unfold save_profile, bind, get_world, put_store. simpl.
  rewrite (update_row_unique profile_id p
             (fun x => set_activation_key x ACTIVATED)) by assumption.
  reflexivity.
Qed.

Lemma lookup_run (key : text) e w :
  except_DoesNotExist (p <- get_by_key key ;; ret (Some p)) (ret None) e w
  = match filter (has_key key) (profiles (store w)) with
    | [] => (Ret None, logged w (QGetKey key))
    | [p] => (Ret (Some p), logged w (QGetKey key))
    | _ => (Raise MultipleObjectsReturned, logged w (QGetKey key))
    end.
Proof.
  unfold except_DoesNotExist, bind. rewrite get_by_key_run.
  destruct (filter (has_key key) (profiles (store w))) as [|p [|q rest]];
    reflexivity.
Qed.

Lemma activate_user_unmatched (key : text) cb e w :
  re_search SHA1_RE key = false ->
  activate_user key cb e w = (Ret PyFalse, w).
Proof. intros H. unfold activate_user. rewrite H. reflexivity. Qed.

Lemma activate_user_not_found (key : text) cb e w :
  re_search SHA1_RE key = true ->
  filter (has_key key) (profiles (store w)) = [] ->
  activate_user key cb e w = (Ret PyFalse, logged w (QGetKey key)).
Proof.
  intros Hre Hf. unfold activate_user. rewrite Hre.
  pose proof (lookup_run key e w) as Hl. rewrite Hf in Hl.
  rewrite (bind_Ret _ _ _ _ _ _ Hl). reflexivity.
Qed.

Lemma activate_user_expired (key : text) cb e w p :
  re_search SHA1_RE key = true ->
  filter (has_key key) (profiles (store w)) = [p] ->
  activation_key_expired p e (logged w (QGetKey key))
  = (Ret true, logged w (QGetKey key)) ->
  activate_user key cb e w = (Ret PyFalse, logged w (QGetKey key)).
Proof.
  intros Hre Hf Hb. unfold activate_user. rewrite Hre.
  pose proof (lookup_run key e w) as Hl. rewrite Hf in Hl.
  rewrite (bind_Ret _ _ _ _ _ _ Hl), (bind_Ret _ _ _ _ _ _ Hb). reflexivity.
Qed.

Lemma activate_user_success (key : text) cb e w p u :
  store_ok (store w) = true ->
  re_search SHA1_RE key = true ->
  filter (has_key key) (profiles (store w)) = [p] ->
  filter (has_id (profile_user_id p)) (users (store w)) = [u] ->
  activation_key_expired p e (logged w (QGetKey key))
  = (Ret false, logged w (QGetKey key)) ->
  activate_user key cb e w
  = (match cb with
     | Some f => f (set_is_active u true)
     | None => ret tt
     end ;;
     ret (Activated (set_is_active u true))) e
      (mkWorld (activated_store (store w) u p)
               (queries w ++ [QGetKey key]) (outbox w)).
Proof.
  intros Hok Hre Hf Hfk Hb. unfold activate_user. rewrite Hre.
  pose proof (lookup_run key e w) as Hl. rewrite Hf in Hl.
  destruct (filter_has_key_In key p _ _ Hf) as [Hp _].
  assert (Hu : In u (users (store w))).
  { assert (H : In u (filter (has_id (profile_user_id p)) (users (store w))))
      by (rewrite Hfk; left; reflexivity).
    apply filter_In in H. tauto. }
  rewrite (bind_Ret _ _ _ _ _ _ Hl), (bind_Ret _ _ _ _ _ _ Hb).
  cbv beta iota delta [negb].
  rewrite (bind_Ret _ _ _ _ _ _
             (profile_user_resolves p u e (logged w (QGetKey key)) Hfk)).
  rewrite (bind_Ret _ _ _ _ _ _
             (save_user_activates u e (logged w (QGetKey key))
                (store_ok_users _ Hok) Hu)).
  erewrite bind_Ret
    by (apply save_profile_consumes; [apply (store_ok_profiles _ Hok) | exact Hp]).
  reflexivity.
Qed.

Lemma no_overflow_elim (e : Env) (s : Store) p u :
  no_overflow e s = true ->
  In p (profiles s) -> In u (users s) ->
  user_id u = profile_user_id p ->
  representable e u p = true.
Proof.
  unfold no_overflow. intros H Hp Hu Hid.
  rewrite forallb_forall in H. specialize (H p Hp).
  rewrite forallb_forall in H. specialize (H u Hu).
  unfold has_id in H. rewrite Hid, Nat.eqb_refl in H. exact H.
Qed.

Lemma activated_store_effect (s : Store) (u : User) (p : RegistrationProfile) :
  In u (users s) -> In p (profiles s) ->
  activation_effect s (activated_store s u p) u p (set_is_active u true).
Proof.
  intros Hu Hp. unfold activation_effect, activated_store.
  cbn [users profiles].
  split; [reflexivity|]. split; [reflexivity|]. split; [|split; [|split]].
  - apply in_map_iff. exists u. unfold has_id. rewrite Nat.eqb_refl. auto.
  - intros x Hx Hid. apply in_map_iff in Hx. destruct Hx as [y [Hy _]].
    destruct (has_id (user_id u) y) eqn:E; subst x; [reflexivity|].
    unfold has_id in E. apply Nat.eqb_neq in E. contradiction.
  - intros x Hne. rewrite in_map_iff. split.
    + intros [y [Hy Hin]]. destruct (has_id (user_id u) y) eqn:E.
      * subst x. unfold has_id in E. apply Nat.eqb_eq in E.
        cbn [set_is_active user_id] in Hne. contradiction.
      * subst x. exact Hin.
    + intros Hin. exists x. unfold has_id.
      rewrite (proj2 (Nat.eqb_neq _ _) Hne). auto.
  - split; [|split].
    + apply in_map_iff. exists p. rewrite Nat.eqb_refl. auto.
    + intros q Hq Hid. apply in_map_iff in Hq. destruct Hq as [y [Hy _]].
      destruct (Nat.eqb (profile_id y) (profile_id p)) eqn:E; subst q;
        [reflexivity|].
      apply Nat.eqb_neq in E. contradiction.
    + intros q Hne. rewrite in_map_iff. split.
      * intros [y [Hy Hin]].
        destruct (Nat.eqb (profile_id y) (profile_id p)) eqn:E.
        -- subst q. apply Nat.eqb_eq in E.
           cbn [set_activation_key profile_id] in Hne. contradiction.
        -- subst q. exact Hin.
      * intros Hin. exists q.
        rewrite (proj2 (Nat.eqb_neq _ _) Hne). auto.
Qed.

(** C1. For every token, [activate_user] checks the syntax first, then
    looks the record up, then checks expiry, and each failed check ends
    the call with [False]; when all pass, the account is made active
    (its row in the store and the account returned have the active flag
    set), the record's token becomes [ALREADY_ACTIVATED], the callback
    (if any) is called with the account, and the account is returned.
    Stated for stores that keep the schema constraints, hold at most one
    record with the token and on which the expiry check does not
    overflow. *)
Theorem activate_user_pipeline
    (key : text) (cb : option callback) (e : Env) (w : World) :
  store_ok (store w) = true ->
  no_overflow e (store w) = true ->
  (List.length (filter (has_key key) (profiles (store w))) <= 1)%nat ->
  let w1 := logged w (QGetKey key) in
  if re_search SHA1_RE key then
    match filter (has_key key) (profiles (store w)) with
    | [] => activate_user key cb e w = (Ret PyFalse, w1)
    | p :: _ =>
        exists u,
          filter (has_id (profile_user_id p)) (users (store w)) = [u]
          /\ exists expired : bool,
               activation_key_expired p e w1 = (Ret expired, w1)
               /\ if expired then activate_user key cb e w = (Ret PyFalse, w1)
                  else
                    exists u' w2,
                      activate_user key cb e w
                      = (match cb with
                         | Some f => f u'
                         | None => ret tt
                         end ;;
                         ret (Activated u')) e w2
                      /\ queries w2 = queries w1
                      /\ outbox w2 = outbox w
                      /\ activation_effect (store w) (store w2) u p u'
    end
  else activate_user key cb e w = (Ret PyFalse, w).
Proof.
  intros Hok Hno Hone w1.
  destruct (re_search SHA1_RE key) eqn:Hre;
    [|apply activate_user_unmatched; assumption].
  destruct (filter (has_key key) (profiles (store w))) as [|p [|q rest]] eqn:Hf.
  - apply activate_user_not_found; assumption.
  - destruct (filter_has_key_In key p _ _ Hf) as [Hp _].
    destruct (store_ok_foreign_key _ p Hok Hp) as [u [Hu [Hid Hfk]]].
    exists u. split; [assumption|].
    pose proof (activation_key_expired_run p u e w1 Hfk
                  (no_overflow_elim e _ p u Hno Hp Hu Hid)) as Hb.
    eexists. split; [exact Hb|].
    destruct (expired_at e u p).
    + apply (activate_user_expired key cb e w p); assumption.
    + exists (set_is_active u true),
             (mkWorld (activated_store (store w) u p)
                      (queries w1) (outbox w1)).
      split; [apply (activate_user_success key cb e w p u); assumption|].
      split; [reflexivity|]. split; [reflexivity|].
      apply activated_store_effect; assumption.
  - simpl in Hone. lia.
Qed.

Lemma bind_Ret_inv {A B} (m : M A) (k : A -> M B) e w b w' :
  bind m k e w = (Ret b, w') ->
  exists a w1, m e w = (Ret a, w1) /\ k a e w1 = (Ret b, w').
Proof.
  unfold bind. destruct (m e w) as [[a | x] w1]; intros H.
  - exists a, w1. split; [reflexivity | assumption].
  - discriminate.
Qed.

Lemma profile_user_pure (p : RegistrationProfile) e w o w' :
  profile_user p e w = (o, w') -> w' = w.
Proof.
  unfold profile_user, bind, get_world, the_one.
  destruct (filter _ _) as [|u [|v rest]]; intros [= _ <-]; reflexivity.
Qed.

Lemma activation_key_expired_pure (p : RegistrationProfile) e w o w' :
  activation_key_expired p e w = (o, w') -> w' = w.
Proof.
  unfold activation_key_expired. unfold bind at 1, ask.
  destruct (0 <? _); [|intros [= _ <-]; reflexivity].
  unfold bind at 1. rewrite timedelta_days_run.
  destruct (Z.abs _ <=? _); [|intros [= _ <-]; reflexivity].
  destruct (text_eqb _ _); [intros [= _ <-]; reflexivity|].
  unfold bind at 1.
  destruct (profile_user p e w) as [[u | x] w1] eqn:Hu;
    apply profile_user_pure in Hu; subst w1;
    [|intros [= _ <-]; reflexivity].
  unfold bind. rewrite datetime_add_run.
  destruct (is_datetime _); intros [= _ <-]; reflexivity.
Qed.

(** C10. Whenever [activate_user] fails (malformed token, no matching
    record, or expired record) it returns [False] and leaves the store as
    it was: no account's active flag and no record's token is changed. *)
Theorem activate_user_failure_keeps_store
    (key : text) (cb : option callback) (e : Env) (w : World) :
  (forall w', activate_user key cb e w = (Ret PyFalse, w') ->
              store w' = store w /\ outbox w' = outbox w)
  /\ (re_search SHA1_RE key = false
      \/ filter (has_key key) (profiles (store w)) = []
      \/ (exists p,
            filter (has_key key) (profiles (store w)) = [p]
            /\ activation_key_expired p e (logged w (QGetKey key))
               = (Ret true, logged w (QGetKey key))) ->
      exists w', activate_user key cb e w = (Ret PyFalse, w')
                 /\ store w' = store w).
Proof.
  split.
  - intros w'. unfold activate_user.
    destruct (re_search SHA1_RE key); [|intros [= <-]; auto].
    intros H. apply bind_Ret_inv in H. destruct H as [found [w1 [Hl H]]].
    rewrite lookup_run in Hl.
    assert (Hw1 : w1 = logged w (QGetKey key)).
    { destruct (filter _ _) as [|p [|q rest]]; congruence. }
    subst w1. destruct found as [p|]; [|injection H as <-; auto].
    apply bind_Ret_inv in H. destruct H as [b [w2 [Hb H]]].
    pose proof (activation_key_expired_pure _ _ _ _ _ Hb) as ->.
    destruct b; simpl in H; [injection H as <-; auto|].
    exfalso.
    apply bind_Ret_inv in H. destruct H as [u [w3 [_ H]]].
    apply bind_Ret_inv in H. destruct H as [? [w4 [_ H]]].
    apply bind_Ret_inv in H. destruct H as [? [w5 [_ H]]].
    apply bind_Ret_inv in H. destruct H as [? [w6 [_ H]]].
    discriminate.
  - unfold activate_user. intros [Hre | Hrest].
    + rewrite Hre. exists w. split; reflexivity.
    + destruct (re_search SHA1_RE key); [|exists w; split; reflexivity].
      pose proof (lookup_run key e w) as Hl.
      exists (logged w (QGetKey key)). split; [|reflexivity].
      destruct Hrest as [Hnone | [p [Hp Hexp]]].
      * rewrite Hnone in Hl. rewrite (bind_Ret _ _ _ _ _ _ Hl). reflexivity.
      * rewrite Hp in Hl.
        rewrite (bind_Ret _ _ _ _ _ _ Hl), (bind_Ret _ _ _ _ _ _ Hexp).
        reflexivity.
Qed.

(** ** The token pattern *)

Lemma take_class_Some (ranges : list (N * N)) (n : nat) (s rest : text) :
  take_class ranges n s = Some rest <->
  exists h, List.length h = n
            /\ forallb (in_class ranges) h = true
            /\ s = h ++ rest.
Proof.
  revert s; induction n as [|n IH]; intros s; simpl.
  - split.
    + intros [= ->]. exists []. auto.
    + intros [h [Hl [_ ->]]]. destruct h; [reflexivity | discriminate].
  - destruct s as [|c s].
    + split; [discriminate|].
      intros [[|c h] [Hl [_ Hs]]]; discriminate.
    + destruct (in_class ranges c) eqn:Hc.
      * rewrite IH. split.
        -- intros [h [Hl [Hh ->]]]. exists (c :: h). simpl.
           rewrite Hc, Hh, Hl. auto.
        -- intros [[|d h] [Hl [Hh Hs]]]; [discriminate|].
           simpl in *. injection Hs as <- ->. injection Hl as Hl.
           rewrite Hc in Hh. exists h. auto.
      * split; [discriminate|].
        intros [[|d h] [Hl [Hh Hs]]]; [discriminate|].
        simpl in *. injection Hs as <- ->. rewrite Hc in Hh. discriminate.
Qed.

Lemma search_from_Bol_later (r : regex) (s : text) :
  search_from (Bol :: r) false s = false.
Proof. induction s as [|c s IH]; simpl; [reflexivity | exact IH]. Qed.

Lemma at_eol_true (s : text) : at_eol s = true <-> s = [] \/ s = [LF].
Proof.
  destruct s as [|c [|d s]]; simpl.
  - split; auto.
  - rewrite N.eqb_eq. split.
    + intros ->; auto.
    + intros [H | [= ->]]; [discriminate | reflexivity].
  - split; [discriminate | intros [H | H]; discriminate].
Qed.

(** What [SHA1_RE.search] accepts: forty lowercase hexadecimal digits,
    alone or followed by one line feed. *)
Lemma SHA1_RE_search_iff (s : text) :
  re_search SHA1_RE s = true <->
  exists h, List.length h = 40%nat
            /\ forallb is_lower_hex h = true
            /\ (s = h \/ s = h ++ [LF]).
Proof.
  unfold re_search, SHA1_RE.
  assert (Hsearch : forall s,
    search_from [Bol; ClassRep [(97%N, 102%N); (48%N, 57%N)] 40; Eol] true s
    = match take_class [(97%N, 102%N); (48%N, 57%N)] 40 s with
      | Some rest => at_eol rest
      | None => false
      end).
  { intros t. destruct t as [|c t].
    - reflexivity.
    - cbn [search_from]. rewrite search_from_Bol_later, orb_false_r.
      cbn [match_here andb Nat.eqb].
      destruct (take_class _ 40 (c :: t)); [apply andb_true_r | reflexivity]. }
  rewrite Hsearch.
  destruct (take_class _ 40 s) as [rest|] eqn:Ht.
  - apply take_class_Some in Ht. destruct Ht as [h [Hl [Hh ->]]].
    rewrite at_eol_true. split.
    + intros [-> | ->]; exists h; rewrite ?app_nil_r; auto.
    + intros [h' [Hl' [_ Hs]]].
      assert (Happ : forall a b c d : text,
                 List.length a = List.length c -> a ++ b = c ++ d -> b = d).
      { intros a b c d Hlen Heq.
        apply (f_equal (skipn (List.length a))) in Heq.
        rewrite skipn_app, skipn_all, Nat.sub_diag in Heq.
        rewrite Hlen, skipn_app, skipn_all, Nat.sub_diag in Heq.
        exact Heq. }
      destruct Hs as [Hs | Hs].
      * left. apply (Happ h rest h' []); [congruence|].
        rewrite app_nil_r; assumption.
      * right. apply (Happ h rest h' [LF]); [congruence | assumption].
  - split; [discriminate|]. intros [h [Hl [Hh Hs]]].
    assert (take_class [(97%N, 102%N); (48%N, 57%N)] 40 s <> None) as Hne.
    { destruct Hs as [-> | ->].
      - rewrite <- (app_nil_r h).
        rewrite (proj2 (take_class_Some _ 40 (h ++ []) [])); [discriminate|].
        exists h; auto.
      - rewrite (proj2 (take_class_Some _ 40 (h ++ [LF]) [LF])); [discriminate|].
        exists h; auto. }
    contradiction.
Qed.

(** C7 (what the code does at a token that is not forty hexadecimal
    digits). The forty-one character token made of forty lowercase
    hexadecimal digits and a final line feed passes the syntax check, and
    [activate_user] sends the record lookup for it. *)
Theorem activate_user_trailing_newline :
  List.length newline_key = 41%nat
  /\ re_search SHA1_RE newline_key = true
  /\ activate_user newline_key None (sample_env 7 0) sample_world
     = (Ret PyFalse, logged sample_world (QGetKey newline_key))
  /\ queries (logged sample_world (QGetKey newline_key))
     = [QGetKey newline_key].
Proof. repeat split; reflexivity. Qed.

(** A token the pattern rejects ends the call before any lookup. *)
Lemma activate_user_rejected_no_lookup (key : text) cb e w :
  ~ (exists h, List.length h = 40%nat /\ forallb is_lower_hex h = true
               /\ (key = h \/ key = h ++ [LF])) ->
  activate_user key cb e w = (Ret PyFalse, w).
Proof.
  intros H. apply activate_user_unmatched.
  destruct (re_search SHA1_RE key) eqn:E; [|reflexivity].
  apply SHA1_RE_search_iff in E. contradiction.
Qed.

(** ** One-time consumption *)

Lemma filter_nil {A} (f : A -> bool) (l : list A) :
  (forall x, In x l -> f x = false) -> filter f l = [].
Proof.
  induction l as [|a l IH]; simpl; intros H; [reflexivity|].
  rewrite (H a) by (left; reflexivity). apply IH. intros; apply H; right; assumption.
Qed.

Lemma sentinel_not_token (key : text) :
  re_search SHA1_RE key = true -> key <> ACTIVATED.
Proof. intros H ->. discriminate. Qed.

Lemma token_gone_after_activation (key : text) s u p :
  NoDup (map profile_id (profiles s)) ->
  re_search SHA1_RE key = true ->
  filter (has_key key) (profiles s) = [p] ->
  filter (has_key key) (profiles (activated_store s u p)) = [].
Proof.
  intros Hnd Hre Hf. apply filter_nil. intros x Hx. simpl in Hx.
  apply in_map_iff in Hx. destruct Hx as [y [<- Hy]].
  destruct (Nat.eqb (profile_id y) (profile_id p)) eqn:E.
  - unfold has_key. cbn [activation_key set_activation_key].
    apply text_eqb_neq. intros H.
    symmetry in H. revert H. apply sentinel_not_token; assumption.
  - destruct (has_key key y) eqn:Hk; [|reflexivity].
    assert (Hin : In y (filter (has_key key) (profiles s)))
      by (apply filter_In; auto).
    rewrite Hf in Hin. destruct Hin as [<- | []].
    rewrite Nat.eqb_refl in E. discriminate.
Qed.

Lemma replayed_dead_token (key : text) (w : World) :
  filter (has_key key) (profiles (store w)) = [] ->
  forall w', replayed key w w' -> store w' = store w.
Proof.
  intros Hf w' Hr. induction Hr as [|cb e w' o w'' Hr IH Hstep]; [reflexivity|].
  rewrite <- IH in Hf.
  destruct (re_search SHA1_RE key) eqn:Hre.
  - rewrite (activate_user_not_found key cb e w' Hre Hf) in Hstep.
    injection Hstep as _ <-. exact IH.
  - rewrite (activate_user_unmatched key cb e w' Hre) in Hstep.
    injection Hstep as _ <-. exact IH.
Qed.

(** C4. A token that passes the syntax check, belongs to one record and
    is not expired is consumed by its first use: the first call of
    [activate_user] returns the account with its active flag set and
    leaves the sentinel in the record; every later call with the same
    token, at any time and under any settings, returns [False] and
    changes nothing, and the record stays expired: its expiry check
    returns true whenever the window fits a [timedelta], and never
    returns false. *)
Theorem activation_consumes_token
    (key : text) (cb : option callback) (e : Env) (w : World)
    (p : RegistrationProfile) (u : User) :
  store_ok (store w) = true ->
  re_search SHA1_RE key = true ->
  filter (has_key key) (profiles (store w)) = [p] ->
  filter (has_id (profile_user_id p)) (users (store w)) = [u] ->
  activation_key_expired p e (logged w (QGetKey key))
  = (Ret false, logged w (QGetKey key)) ->
  (forall f, cb = Some f ->
     forall x e0 w0, exists w1, f x e0 w0 = (Ret tt, w1) /\ store w1 = store w0) ->
  exists w2,
    activate_user key cb e w = (Ret (Activated (set_is_active u true)), w2)
    /\ is_active (set_is_active u true) = true
    /\ store w2 = activated_store (store w) u p
    /\ In (set_is_active u true) (users (store w2))
    /\ In (set_activation_key p ACTIVATED) (profiles (store w2))
    /\ forall w', replayed key w2 w' ->
         store w' = store w2
         /\ forall cb' e',
              activate_user key cb' e' w'
              = (Ret PyFalse, logged w' (QGetKey key))
              /\ (ACCOUNT_ACTIVATION_DAYS (settings e') <= timedelta_max_days ->
                  activation_key_expired (set_activation_key p ACTIVATED) e' w'
                  = (Ret true, w'))
              /\ (forall b w'',
                    activation_key_expired (set_activation_key p ACTIVATED)
                      e' w' = (Ret b, w'') ->
                    b = true).
Proof.
  intros Hok Hre Hf Hfk Hb Hcb.
  pose proof (activate_user_success key cb e w p u Hok Hre Hf Hfk Hb) as Hrun.
  destruct (filter_has_key_In key p _ _ Hf) as [Hp _].
  assert (Hu : In u (users (store w))).
  { assert (H : In u (filter (has_id (profile_user_id p)) (users (store w))))
      by (rewrite Hfk; left; reflexivity).
    apply filter_In in H. tauto. }
  set (w1 := mkWorld (activated_store (store w) u p)
                     (queries w ++ [QGetKey key]) (outbox w)) in *.
  assert (Hcall : exists w2,
             activate_user key cb e w
             = (Ret (Activated (set_is_active u true)), w2)
             /\ store w2 = store w1).
  { destruct cb as [f|].
    - destruct (Hcb f eq_refl (set_is_active u true) e w1) as [w2 [Hrunf Hst]].
      exists w2. rewrite Hrun, (bind_Ret _ _ _ _ _ _ Hrunf). auto.
    - exists w1. rewrite Hrun. auto. }
  destruct Hcall as [w2 [Hcall Hst]]. exists w2.
  split; [assumption|]. split; [reflexivity|]. split; [assumption|].
  assert (Hgone : filter (has_key key) (profiles (store w2)) = []).
  { rewrite Hst. apply token_gone_after_activation;
      auto using store_ok_profiles. }
  split; [|split].
  - rewrite Hst. simpl. apply in_map_iff. exists u.
    unfold has_id. rewrite Nat.eqb_refl. auto.
  - rewrite Hst. simpl. apply in_map_iff. exists p.
    rewrite Nat.eqb_refl. auto.
  - intros w' Hr. pose proof (replayed_dead_token key w2 Hgone w' Hr) as Hsame.
    split; [assumption|]. intros cb' e'. split; [|split].
    + apply activate_user_not_found; [assumption|]. rewrite Hsame; assumption.
    + intros Hd. apply sentinel_always_expired; [reflexivity | exact Hd].
    + intros b w''. apply sentinel_never_unexpired. reflexivity.
Qed.

(** C5. With an activation window of seven days, the token of an account
    created at time [T] (with [T] plus seven days within the range of
    [datetime]) activates the account at every time strictly before [T]
    plus seven days: the call returns the account with its active flag
    set, its row in the store is active and its record holds the sentinel.
    At [T] plus seven days and at every later time the call fails at the
    expiry check and returns [False]. *)
Theorem seven_day_window
    (key : text) (cb : option callback) (e : Env) (w : World)
    (p : RegistrationProfile) (u : User) :
  store_ok (store w) = true ->
  re_search SHA1_RE key = true ->
  filter (has_key key) (profiles (store w)) = [p] ->
  filter (has_id (profile_user_id p)) (users (store w)) = [u] ->
  ACCOUNT_ACTIVATION_DAYS (settings e) = 7 ->
  let T := date_joined u in
  is_datetime (T + 7 * microseconds_per_day) = true ->
  let w1 := logged w (QGetKey key) in
  (now e < T + 7 * microseconds_per_day ->
   activation_key_expired p e w1 = (Ret false, w1)
   /\ exists u' w2,
        activate_user key cb e w
        = (match cb with
           | Some f => f u'
           | None => ret tt
           end ;;
           ret (Activated u')) e w2
        /\ queries w2 = queries w1
        /\ outbox w2 = outbox w
        /\ activation_effect (store w) (store w2) u p u')
  /\ (T + 7 * microseconds_per_day <= now e ->
      activation_key_expired p e w1 = (Ret true, w1)
      /\ activate_user key cb e w = (Ret PyFalse, w1)).
Proof.
  intros Hok Hre Hf Hfk Hdays T Hrange w1.
  assert (Hrep : representable e u p = true).
  { unfold representable. rewrite Hdays. fold T. rewrite Hrange.
    rewrite orb_true_r. reflexivity. }
  pose proof (activation_key_expired_run p u e w1 Hfk Hrep) as Hb.
  unfold expired_at in Hb. rewrite Hdays in Hb. fold T in Hb.
  destruct (filter_has_key_In key p _ _ Hf) as [Hp Hk].
  assert (Hu : In u (users (store w))).
  { assert (H : In u (filter (has_id (profile_user_id p)) (users (store w))))
      by (rewrite Hfk; left; reflexivity).
    apply filter_In in H. tauto. }
  assert (Hns : text_eqb (activation_key p) ACTIVATED = false).
  { apply text_eqb_neq. rewrite Hk. apply sentinel_not_token; assumption. }
  rewrite Hns in Hb. change (0 <? 7) with true in Hb. cbn [orb andb] in Hb.
  split; intros Hnow.
  - assert (Hle : (T + 7 * microseconds_per_day <=? now e) = false)
      by (apply Z.leb_gt; assumption).
    rewrite Hle in Hb. split; [assumption|].
    exists (set_is_active u true),
           (mkWorld (activated_store (store w) u p) (queries w1) (outbox w1)).
    split; [apply (activate_user_success key cb e w p u); assumption|].
    split; [reflexivity|]. split; [reflexivity|].
    apply activated_store_effect; assumption.
  - assert (Hle : (T + 7 * microseconds_per_day <=? now e) = true)
      by (apply Z.leb_le; assumption).
    rewrite Hle in Hb. split; [assumption|].
    apply (activate_user_expired key cb e w p); assumption.
Qed.

(** ** Authentication by activation key *)

Lemma filter_head_find {A} (f : A -> bool) (l : list A) :
  hd_error (filter f l) = find f l.
Proof.
  induction l as [|a l IH]; simpl; [reflexivity|].
  destruct (f a); [reflexivity | exact IH].
Qed.

Lemma filter_by_key_run (key : text) e w :
  filter_by_key key e w
  = (Ret (filter (has_key key) (profiles (store w))),
     logged w (QFilterKey key)).
Proof. reflexivity. Qed.

(** C9. For every key that is not [None], [authenticate] returns the
    user of the first record whose token equals the key, and [None] when
    no record has it. The key's syntax, the record's expiry and the
    account's active flag play no part: the sentinel itself, which the
    token pattern rejects and which makes its record expired (the
    expiry check returns true whenever the window fits a [timedelta],
    and never returns false), authenticates as the account of the first
    activated record. *)
Theorem authenticate_first_match (key : text) (e : Env) (w : World) :
  let w1 := logged w (QFilterKey key) in
  (find (has_key key) (profiles (store w)) = None ->
   authenticate (Some key) e w = (Ret None, w1))
  /\ (forall p u,
        find (has_key key) (profiles (store w)) = Some p ->
        filter (has_id (profile_user_id p)) (users (store w)) = [u] ->
        authenticate (Some key) e w = (Ret (Some u), w1))
  /\ (forall p u,
        key = ACTIVATED ->
        find (has_key key) (profiles (store w)) = Some p ->
        filter (has_id (profile_user_id p)) (users (store w)) = [u] ->
        re_search SHA1_RE key = false
        /\ (ACCOUNT_ACTIVATION_DAYS (settings e) <= timedelta_max_days ->
            activation_key_expired p e w = (Ret true, w))
        /\ (forall b w', activation_key_expired p e w = (Ret b, w') ->
                         b = true)
        /\ authenticate (Some key) e w = (Ret (Some u), w1)).
Proof.
  intros w1.
  assert (Hrun : forall p u,
             find (has_key key) (profiles (store w)) = Some p ->
             filter (has_id (profile_user_id p)) (users (store w)) = [u] ->
             authenticate (Some key) e w = (Ret (Some u), w1)).
  { intros p u Hfind Hfk. unfold authenticate.
    rewrite (bind_Ret _ _ _ _ _ _ (filter_by_key_run key e w)). fold w1.
    rewrite <- filter_head_find in Hfind.
    destruct (filter (has_key key) (profiles (store w))) as [|q rest];
      [discriminate|].
    injection Hfind as ->. cbn [List.length Nat.eqb].
    rewrite (bind_Ret _ _ _ _ _ _ (profile_user_resolves p u e w1 Hfk)).
    reflexivity. }
  split; [|split].
  - intros Hfind. unfold authenticate.
    rewrite (bind_Ret _ _ _ _ _ _ (filter_by_key_run key e w)). fold w1.
    rewrite <- filter_head_find in Hfind.
    destruct (filter (has_key key) (profiles (store w))) as [|q rest];
      [reflexivity | discriminate].
  - exact Hrun.
  - intros p u -> Hfind Hfk.
    assert (Hk : activation_key p = ACTIVATED).
    { apply find_some in Hfind. apply text_eqb_eq. exact (proj2 Hfind). }
    split; [reflexivity|]. split; [|split].
    + intros Hd. apply sentinel_always_expired; assumption.
    + intros b w'. apply sentinel_never_unexpired. exact Hk.
    + apply (Hrun p u); assumption.
Qed.

(** ** Purging expired accounts *)

Lemma existsb_ext_in {A} (f g : A -> bool) (l : list A) :
  (forall x, In x l -> f x = g x) -> existsb f l = existsb g l.
Proof.
  induction l as [|a l IH]; simpl; intros H; [reflexivity|].
  rewrite (H a) by (left; reflexivity).
  rewrite IH; [reflexivity|]. intros; apply H; right; assumption.
Qed.

Lemma existsb_filter {A} (f g : A -> bool) (l : list A) :
  existsb f (filter g l) = existsb (fun x => g x && f x) l.
Proof.
  induction l as [|a l IH]; simpl; [reflexivity|].
  destruct (g a); simpl; rewrite IH; reflexivity.
Qed.

Lemma filter_filter_and {A} (f g : A -> bool) (l : list A) :
  filter f (filter g l) = filter (fun x => g x && f x) l.
Proof.
  induction l as [|a l IH]; simpl; [reflexivity|].
  destruct (g a); simpl; rewrite IH; reflexivity.
Qed.

Lemma filter_all {A} (f : A -> bool) (l : list A) :
  (forall x, In x l -> f x = true) -> filter f l = l.
Proof.
  induction l as [|a l IH]; simpl; intros H; [reflexivity|].
  rewrite (H a) by (left; reflexivity).
  f_equal. apply IH. intros; apply H; right; assumption.
Qed.

Lemma existsb_never {A} (l : list A) : existsb (fun _ => false) l = false.
Proof. induction l as [|a l IH]; [reflexivity | exact IH]. Qed.

Lemma NoDup_map_filter {A} (key : A -> nat) (g : A -> bool) (l : list A) :
  NoDup (map key l) -> NoDup (map key (filter g l)).
Proof.
  induction l as [|a l IH]; simpl; intros H; [constructor|].
  inversion H as [|? ? Ha Hl]; subst.
  destruct (g a); simpl; [|auto].
  constructor; [|auto]. intros Hin. apply Ha.
  apply in_map_iff in Hin. destruct Hin as [x [Hx Hin]].
  apply filter_In in Hin. rewrite <- Hx. apply in_map. tauto.
Qed.

Lemma same_id_same_user (l : list User) (x y : User) :
  NoDup (map user_id l) -> In x l -> In y l -> user_id x = user_id y -> x = y.
Proof.
  intros Hnd Hx Hy Hid.
  pose proof (filter_key_unique user_id y l Hnd Hy) as Hf.
  assert (Hin : In x (filter (fun z => Nat.eqb (user_id z) (user_id y)) l)).
  { apply filter_In. split; [assumption | apply Nat.eqb_eq; assumption]. }
  rewrite Hf in Hin. destruct Hin as [<- | []]. reflexivity.
Qed.

Lemma delete_user_run (u : User) e w :
  delete_user u e w
  = (Ret tt,
     mkWorld (mkStore (filter (fun x => negb (has_id (user_id u) x))
                              (users (store w)))
                      (filter (fun p => negb (has_user (user_id u) p))
                              (profiles (store w))))
             (queries w) (outbox w)).
Proof. reflexivity. Qed.

(** One turn of the loop leaves [doomed] as it was on the accounts that
    the record of that turn does not point to. *)
Lemma doomed_cons_other e p rows x :
  profile_user_id p <> user_id x ->
  doomed e (p :: rows) x = doomed e rows x.
Proof.
  intros Hne. unfold doomed. cbn [existsb]. unfold has_user at 1.
  destruct (Nat.eqb (profile_user_id p) (user_id x)) eqn:E;
    [apply Nat.eqb_eq in E; contradiction | reflexivity].
Qed.

Lemma doomed_cons_own e p rows u :
  profile_user_id p = user_id u ->
  doomed e (p :: rows) u
  = negb (is_active u) && (expired_at e u p || 
      existsb (fun q => has_user (user_id u) q && expired_at e u q) rows).
Proof.
  intros Heq. unfold doomed. cbn [existsb]. unfold has_user at 1.
  rewrite Heq, Nat.eqb_refl. reflexivity.
Qed.

(** The loop of [delete_expired_users], from any store in which the rows
    it runs over point to existing accounts, one row per account. *)
Lemma delete_expired_loop_run e (rows : list RegistrationProfile) :
  forall w,
    NoDup (map user_id (users (store w))) ->
    NoDup (map profile_user_id rows) ->
    (forall p, In p rows ->
               existsb (has_id (profile_user_id p)) (users (store w)) = true) ->
    (forall p u, In p rows -> In u (users (store w)) ->
                 user_id u = profile_user_id p ->
                 representable e u p = true) ->
    delete_expired_loop rows e w
    = (Ret tt,
       mkWorld
         (mkStore
            (filter (fun x => negb (doomed e rows x)) (users (store w)))
            (filter (fun q =>
                       negb (existsb (fun x => has_id (profile_user_id q) x
                                               && doomed e rows x)
                                     (users (store w))))
                    (profiles (store w))))
         (queries w) (outbox w)).
Proof.
  induction rows as [|p rows IH]; intros w Hnd Hrows Hfk Hrep.
  - cbn [delete_expired_loop ret].
    rewrite !filter_all.
    + destruct w as [[us ps] qs ob]. reflexivity.
    + intros q _. apply negb_true_iff.
      rewrite (existsb_ext_in _ (fun _ => false)).
      * apply existsb_never.
      * intros x _. unfold doomed. cbn [existsb].
        rewrite !andb_false_r. reflexivity.
    + intros x _. unfold doomed. cbn [existsb].
      rewrite andb_false_r. reflexivity.
  - inversion Hrows as [|? ? Hp Hrows']; subst.
    assert (Hex := Hfk p (or_introl eq_refl)).
    apply existsb_exists in Hex. destruct Hex as [u [Hu Hid]].
    apply Nat.eqb_eq in Hid.
    assert (Hres : filter (has_id (profile_user_id p)) (users (store w)) = [u]).
    { rewrite <- Hid. apply (filter_key_unique user_id); assumption. }
    cbn [delete_expired_loop].
    rewrite (bind_Ret _ _ _ _ _ _
               (activation_key_expired_run p u e w Hres
                  (Hrep p u (or_introl eq_refl) Hu Hid))).
    assert (Hother : forall x, In x (users (store w)) ->
                               user_id x <> user_id u ->
                               doomed e (p :: rows) x = doomed e rows x).
    { intros x _ Hne. apply doomed_cons_other. congruence. }
    destruct (expired_at e u p && negb (is_active u)) eqn:Hdoom.
    + (* the account of [p] is deleted *)
      apply andb_true_iff in Hdoom. destruct Hdoom as [Hexp Hina].
      rewrite Hexp.
      assert (Hstep :
        (user <- profile_user p ;;
         if negb (is_active user) then delete_user user else ret tt) e w
        = delete_user u e w).
      { rewrite (bind_Ret _ _ _ _ _ _ (profile_user_resolves p u e w Hres)).
        rewrite Hina. reflexivity. }
      rewrite delete_user_run in Hstep.
      rewrite (bind_Ret _ _ _ _ _ _ Hstep).
      rewrite IH; cbn [store users profiles queries outbox].
      * assert (Hdu : doomed e (p :: rows) u = true).
        { rewrite doomed_cons_own by congruence. rewrite Hina, Hexp. reflexivity. }
        f_equal. f_equal. f_equal.
        -- rewrite filter_filter_and. apply filter_ext_in. intros x Hx.
           unfold has_id at 1.
           destruct (Nat.eqb (user_id x) (user_id u)) eqn:E.
           ++ apply Nat.eqb_eq in E.
              rewrite (same_id_same_user _ x u Hnd Hx Hu E), Hdu. reflexivity.
           ++ apply Nat.eqb_neq in E. rewrite (Hother x Hx E). reflexivity.
        -- rewrite filter_filter_and. apply filter_ext_in. intros q Hq.
           unfold has_user at 1.
           destruct (Nat.eqb (profile_user_id q) (user_id u)) eqn:E.
           ++ apply Nat.eqb_eq in E. cbn [negb andb]. symmetry.
              apply negb_false_iff. apply existsb_exists. exists u.
              split; [assumption|]. unfold has_id.
              rewrite E, Nat.eqb_refl, Hdu. reflexivity.
           ++ apply Nat.eqb_neq in E. cbn [negb andb]. f_equal.
              rewrite existsb_filter. apply existsb_ext_in. intros x Hx.
              unfold has_id.
              destruct (Nat.eqb (user_id x) (user_id u)) eqn:E'.
              ** apply Nat.eqb_eq in E'.
                 assert (Nat.eqb (user_id x) (profile_user_id q) = false) as ->
                   by (apply Nat.eqb_neq; congruence).
                 reflexivity.
              ** apply Nat.eqb_neq in E'. rewrite (Hother x Hx E').
                 reflexivity.
      * apply NoDup_map_filter; assumption.
      * assumption.
      * intros q Hq. assert (Hexq := Hfk q (or_intror Hq)).
        apply existsb_exists in Hexq. destruct Hexq as [x [Hx Hxid]].
        apply existsb_exists. exists x. split; [|assumption].
        apply filter_In. split; [assumption|].
        apply negb_true_iff. apply Nat.eqb_neq. apply Nat.eqb_eq in Hxid.
        intros Heq. apply Hp. rewrite <- Hid, <- Heq, Hxid.
        apply in_map; assumption.
      * intros q x Hq Hx Hxid. apply filter_In in Hx.
        apply Hrep; [right; assumption | tauto | assumption].
    + (* nothing is deleted in this turn *)
      assert (Hstep :
        (if expired_at e u p
         then user <- profile_user p ;;
              if negb (is_active user) then delete_user user else ret tt
         else ret tt) e w = (Ret tt, w)).
      { destruct (expired_at e u p); [|reflexivity].
        rewrite (bind_Ret _ _ _ _ _ _ (profile_user_resolves p u e w Hres)).
        cbn [andb] in Hdoom. rewrite Hdoom. reflexivity. }
      rewrite (bind_Ret _ _ _ _ _ _ Hstep).
      rewrite IH; try assumption.
      * assert (Hsame : forall x, In x (users (store w)) ->
                                  doomed e (p :: rows) x = doomed e rows x).
        { intros x Hx.
          destruct (Nat.eq_dec (user_id x) (user_id u)) as [E | E];
            [|apply Hother; assumption].
          rewrite (same_id_same_user _ x u Hnd Hx Hu E).
          rewrite doomed_cons_own by congruence. unfold doomed.
          apply andb_false_iff in Hdoom. destruct Hdoom as [-> | Hact].
          - reflexivity.
          - rewrite Hact. reflexivity. }
        f_equal. f_equal. f_equal.
        -- apply filter_ext_in. intros x Hx. rewrite Hsame; auto.
        -- apply filter_ext_in. intros q _. f_equal.
           apply existsb_ext_in. intros x Hx. rewrite Hsame; auto.
      * intros q Hq. apply Hfk. right; assumption.
      * intros q x Hq Hx Hxid. apply Hrep; [right; assumption | assumption..].
Qed.

Lemma is_expired_of_account e w u p :
  NoDup (map user_id (users (store w))) ->
  In u (users (store w)) ->
  profile_user_id p = user_id u ->
  representable e u p = true ->
  is_expired e w p = expired_at e u p.
Proof.
  intros Hnd Hu Hid Hrep. unfold is_expired.
  rewrite (activation_key_expired_run p u e w); [reflexivity| |exact Hrep].
  rewrite Hid. apply (filter_key_unique user_id); assumption.
Qed.

Lemma purged_doomed e w x :
  NoDup (map user_id (users (store w))) ->
  no_overflow e (store w) = true ->
  In x (users (store w)) ->
  doomed e (profiles (store w)) x = purged e w x.
Proof.
  intros Hnd Hno Hx. unfold doomed, purged. f_equal.
  apply existsb_ext_in. intros p Hp. unfold has_user.
  destruct (Nat.eqb (profile_user_id p) (user_id x)) eqn:E; [|reflexivity].
  apply Nat.eqb_eq in E. cbn [andb]. symmetry.
  apply is_expired_of_account; try assumption.
  apply (no_overflow_elim e (store w)); auto.
Qed.

(** C3. [delete_expired_users] runs over all registration records and
    deletes exactly the accounts that are inactive and have a record
    whose expiry check is true, together with their records. So an
    inactive account whose window has elapsed is deleted, an active
    account is kept with its record, and an inactive account whose record
    holds the sentinel is deleted. Stated for settings and stores on
    which no expiry check overflows. *)
Theorem delete_expired_users_purges (e : Env) (w : World) :
  store_ok (store w) = true ->
  no_overflow e (store w) = true ->
  exists w',
    delete_expired_users e w = (Ret tt, w')
    /\ users (store w')
       = filter (fun u => negb (purged e w u)) (users (store w))
    /\ profiles (store w')
       = filter (fun p =>
                   negb (existsb (fun u => has_id (profile_user_id p) u
                                           && purged e w u)
                                 (users (store w))))
                (profiles (store w))
    /\ (forall u p,
          In u (users (store w)) -> In p (profiles (store w)) ->
          profile_user_id p = user_id u ->
          (is_active u = false ->
           0 < ACCOUNT_ACTIVATION_DAYS (settings e) ->
           date_joined u
           + ACCOUNT_ACTIVATION_DAYS (settings e) * microseconds_per_day
           <= now e ->
           ~ In u (users (store w')) /\ ~ In p (profiles (store w')))
          /\ (is_active u = true ->
              In u (users (store w')) /\ In p (profiles (store w')))
          /\ (is_active u = false -> activation_key p = ACTIVATED ->
              ~ In u (users (store w')) /\ ~ In p (profiles (store w')))).
Proof.
  intros Hok Hno. pose proof (store_ok_users _ Hok) as Hnd.
  pose proof (store_ok_one_to_one _ Hok) as H11.
  assert (Hfk : forall p, In p (profiles (store w)) ->
                  existsb (has_id (profile_user_id p)) (users (store w)) = true).
  { unfold store_ok in Hok. rewrite !andb_true_iff in Hok.
    destruct Hok as [_ Hfk]. rewrite forallb_forall in Hfk. exact Hfk. }
  pose proof (delete_expired_loop_run e (profiles (store w))
                (logged w QAll) Hnd H11 Hfk
                (fun p u Hp Hu Hid => no_overflow_elim e _ p u Hno Hp Hu Hid))
    as Hloop.
  cbn [logged store queries outbox] in Hloop.
  assert (Hu : filter (fun x => negb (doomed e (profiles (store w)) x))
                      (users (store w))
               = filter (fun u => negb (purged e w u)) (users (store w))).
  { apply filter_ext_in. intros x Hx. rewrite purged_doomed; auto. }
  assert (Hp : filter (fun q =>
                 negb (existsb (fun x => has_id (profile_user_id q) x
                                         && doomed e (profiles (store w)) x)
                               (users (store w))))
                      (profiles (store w))
               = filter (fun p =>
                   negb (existsb (fun u => has_id (profile_user_id p) u
                                           && purged e w u)
                                 (users (store w))))
                        (profiles (store w))).
  { apply filter_ext_in. intros q _. f_equal. apply existsb_ext_in.
    intros x Hx. rewrite purged_doomed; auto. }
  rewrite Hu, Hp in Hloop.
  eexists. split; [|split; [|split]].
  - unfold delete_expired_users.
    assert (Hall : all_profiles e w = (Ret (profiles (store w)), logged w QAll))
      by reflexivity.
    rewrite (bind_Ret _ _ _ _ _ _ Hall). exact Hloop.
  - reflexivity.
  - reflexivity.
  - cbn [store users profiles]. intros u p Hu' Hp' Hid.
    assert (Hexp : is_expired e w p = expired_at e u p).
    { apply is_expired_of_account; try assumption.
      apply (no_overflow_elim e (store w)); auto. }
    assert (Hpurged : is_active u = false -> expired_at e u p = true ->
                      purged e w u = true).
    { intros Hina Hex. unfold purged. rewrite Hina. cbn [negb andb].
      apply existsb_exists. exists p. split; [assumption|].
      unfold has_user. rewrite Hid, Nat.eqb_refl, Hexp. exact Hex. }
    assert (Hgone : purged e w u = true ->
                    ~ In u (filter (fun u0 => negb (purged e w u0))
                                   (users (store w)))
                    /\ ~ In p (filter (fun p0 =>
                                 negb (existsb (fun u0 =>
                                         has_id (profile_user_id p0) u0
                                         && purged e w u0) (users (store w))))
                               (profiles (store w)))).
    { intros Hpu. split; intros Hin; apply filter_In in Hin;
        destruct Hin as [_ Hin].
      - rewrite Hpu in Hin. discriminate.
      - apply negb_true_iff in Hin.
        assert (Hex : existsb (fun u0 => has_id (profile_user_id p) u0
                                         && purged e w u0) (users (store w))
                      = true).
        { apply existsb_exists. exists u. split; [assumption|].
          unfold has_id. rewrite Hid, Nat.eqb_refl, Hpu. reflexivity. }
        congruence. }
    split; [|split].
    + intros Hina Hdays Hold. apply Hgone, Hpurged; [assumption|].
      unfold expired_at.
      rewrite (proj2 (Z.ltb_lt _ _) Hdays), (proj2 (Z.leb_le _ _) Hold).
      apply orb_true_r.
    + intros Hact. split; apply filter_In; (split; [assumption|]).
      * unfold purged. rewrite Hact. reflexivity.
      * apply negb_true_iff.
        rewrite (existsb_ext_in _ (fun _ => false)); [apply existsb_never|].
        intros x Hx. unfold has_id.
        destruct (Nat.eqb (user_id x) (profile_user_id p)) eqn:E;
          [|reflexivity].
        apply Nat.eqb_eq in E.
        assert (x = u) as ->
          by (apply (same_id_same_user (users (store w))); congruence).
        unfold purged. rewrite Hact. reflexivity.
    + intros Hina Hkey. apply Hgone, Hpurged; [assumption|].
      unfold expired_at. rewrite Hkey, text_eqb_refl. reflexivity.
Qed.

(** ** The activation mail *)

Lemma splitlines_from_removes_breaks (n : nat) :
  forall (s line : text),
    (List.length s <= n)%nat ->
    List.concat (splitlines_from line s)
    = rev line ++ filter (fun c => negb (is_linebreak c)) s.
Proof.
  induction n as [|n IH]; intros s line Hlen.
  - destruct s; [|simpl in Hlen; lia].
    simpl. destruct line; simpl; rewrite ?app_nil_r; reflexivity.
  - destruct s as [|c s'].
    + simpl. destruct line; simpl; rewrite ?app_nil_r; reflexivity.
    + simpl in Hlen. cbn [splitlines_from filter].
      destruct (is_linebreak c) eqn:Hc; cbn [negb].
      * assert (Hrest : List.concat (splitlines_from [] s')
                        = filter (fun c => negb (is_linebreak c)) s')
          by (rewrite IH by lia; reflexivity).
        destruct (N.eqb c CR) eqn:Hcr; cbn [List.concat].
        -- destruct s' as [|d s'']; [rewrite Hrest; reflexivity|].
           destruct (N.eqb d LF) eqn:Hd; [|rewrite Hrest; reflexivity].
           apply N.eqb_eq in Hd. subst d. simpl in Hlen.
           rewrite IH by lia. reflexivity.
        -- rewrite Hrest. reflexivity.
      * rewrite IH by lia. cbn [rev]. rewrite <- app_assoc. reflexivity.
Qed.

(** [''.join(s.splitlines())] is [s] without its line boundaries. *)
Lemma join_splitlines (s : text) :
  join_empty (splitlines s) = filter (fun c => negb (is_linebreak c)) s.
Proof.
  unfold join_empty, splitlines.
  rewrite (splitlines_from_removes_breaks (List.length s)) by lia.
  reflexivity.
Qed.

Lemma splitlines_from_one_line (s line : text) :
  forallb (fun c => negb (is_linebreak c)) s = true ->
  splitlines_from line s
  = match rev line ++ s with [] => [] | l => [l] end.
Proof.
  revert line; induction s as [|c s IH]; intros line Hs.
  - simpl. rewrite app_nil_r. destruct line as [|a line]; [reflexivity|].
    simpl. destruct (rev line ++ [a]) eqn:E; [|reflexivity].
    destruct (rev line); discriminate.
  - simpl in Hs. apply andb_true_iff in Hs. destruct Hs as [Hc Hs].
    apply negb_true_iff in Hc. cbn [splitlines_from]. rewrite Hc.
    rewrite IH by assumption. cbn [rev]. rewrite <- app_assoc. reflexivity.
Qed.

Lemma joined_subject_single_line (s : text) :
  let subject := join_empty (splitlines s) in
  (forall c, In c subject -> is_linebreak c = false)
  /\ (List.length (splitlines subject) <= 1)%nat.
Proof.
  intros subject. unfold subject. rewrite join_splitlines. split.
  - intros c Hc. apply filter_In in Hc. destruct Hc as [_ Hc].
    apply negb_true_iff. exact Hc.
  - unfold splitlines. rewrite splitlines_from_one_line.
    + cbn [rev app]. destruct (filter _ s); simpl; lia.
    + apply forallb_forall. intros c Hc. apply filter_In in Hc. tauto.
Qed.

Lemma get_user_by_name_run (name : text) e w :
  get_user_by_name name e w
  = the_one (filter (has_username name) (users (store w))) e w.
Proof. reflexivity. Qed.

Lemma get_by_user_run (u : User) e w :
  get_by_user u e w
  = the_one (filter (has_user (user_id u)) (profiles (store w))) e
            (logged w (QGetUser (user_id u))).
Proof. reflexivity. Qed.

Lemma the_one_pure {A} (rows : list A) e w o w' :
  the_one rows e w = (o, w') -> w' = w.
Proof.
  destruct rows as [|a [|b rows]]; intros [= _ <-]; reflexivity.
Qed.

Section Mailer.

Variable render_to_string : text -> context -> text.
Variable current_site : Site.

(** What a call with successful lookups does: one mail to the resolved
    address, or none when that address is blank. *)
Lemma send_activation_email_sends
    name extra mail tb ts e w user profile :
  filter (has_username name) (users (store w)) = [user] ->
  filter (has_user (user_id user)) (profiles (store w)) = [profile] ->
  send_activation_email render_to_string current_site name extra mail tb ts
    e w
  = (Ret tt,
     mkWorld (store w) (queries w ++ [QGetUser (user_id user)])
       (outbox w ++
        match strip (resolve_email mail user) with
        | [] => []
        | _ =>
            [mkMail
               (join_empty
                  (splitlines
                     (render_to_string
                        (template_or ts default_template_subject)
                        (subject_context current_site extra user))))
               (render_to_string
                  (template_or tb default_template_body)
                  (body_context current_site extra user name
                     (activation_key profile)
                     (ACCOUNT_ACTIVATION_DAYS (settings e))))
               (DEFAULT_FROM_EMAIL (settings e))
               [resolve_email mail user]]
        end)).
Proof.
  intros Hu Hp. unfold send_activation_email.
  assert (H1 : get_user_by_name name e w = (Ret user, w))
    by (rewrite get_user_by_name_run, Hu; reflexivity).
  assert (H2 : get_by_user user e w
               = (Ret profile, logged w (QGetUser (user_id user))))
    by (rewrite get_by_user_run, Hp; reflexivity).
  rewrite (bind_Ret _ _ _ _ _ _ H1), (bind_Ret _ _ _ _ _ _ H2).
  unfold bind, ask. cbv zeta.
  destruct (strip (resolve_email mail user)).
  - unfold ret, logged. rewrite app_nil_r. reflexivity.
  - reflexivity.
Qed.

(** C8. Whatever the template renders, [send_activation_email] forces
    the subject to a single line before sending: when the resolved
    address is not blank it sends one mail whose subject is the rendered
    subject without its line boundaries, and no mail it adds to the
    outbox has a line boundary in its subject; and when the resolved
    address is empty after trimming white space the call sends nothing
    and returns normally. *)
Theorem activation_email_subject_and_blank_address
    name extra mail tb ts e w :
  let r := send_activation_email render_to_string current_site
             name extra mail tb ts e w in
  (forall m, In m (outbox (snd r)) ->
     In m (outbox w)
     \/ ((exists ctx,
            mail_subject m
            = filter (fun c => negb (is_linebreak c))
                (render_to_string (template_or ts default_template_subject)
                                  ctx))
         /\ (forall c, In c (mail_subject m) -> is_linebreak c = false)
         /\ (List.length (splitlines (mail_subject m)) <= 1)%nat))
  /\ (forall user profile,
        filter (has_username name) (users (store w)) = [user] ->
        filter (has_user (user_id user)) (profiles (store w)) = [profile] ->
        (strip (resolve_email mail user) = [] ->
         r = (Ret tt, logged w (QGetUser (user_id user)))
         /\ outbox (snd r) = outbox w)
        /\ (strip (resolve_email mail user) <> [] ->
            exists m,
              r = (Ret tt,
                   mkWorld (store w)
                           (queries w ++ [QGetUser (user_id user)])
                           (outbox w ++ [m]))
              /\ mail_subject m
                 = filter (fun c => negb (is_linebreak c))
                     (render_to_string
                        (template_or ts default_template_subject)
                        (subject_context current_site extra user))
              /\ (forall c, In c (mail_subject m) -> is_linebreak c = false)
              /\ (List.length (splitlines (mail_subject m)) <= 1)%nat
              /\ mail_to m = [resolve_email mail user])).
Proof.
  intros r. split.
  - intros m Hm. unfold r in Hm.
    destruct (filter (has_username name) (users (store w)))
      as [|user [|u2 us]] eqn:Hu.
    + left. unfold send_activation_email in Hm.
      erewrite bind_Raise in Hm
        by (rewrite get_user_by_name_run, Hu; reflexivity).
      exact Hm.
    + destruct (filter (has_user (user_id user)) (profiles (store w)))
        as [|profile [|p2 ps]] eqn:Hp.
      * left. unfold send_activation_email in Hm.
        erewrite bind_Ret in Hm
          by (rewrite get_user_by_name_run, Hu; reflexivity).
        erewrite bind_Raise in Hm
          by (rewrite get_by_user_run, Hp; reflexivity).
        exact Hm.
      * rewrite (send_activation_email_sends name extra mail tb ts e w
                   user profile Hu Hp) in Hm.
        cbn [snd outbox] in Hm.
        apply in_app_or in Hm. destruct Hm as [Hm | Hm]; [left; exact Hm|].
        right. destruct (strip (resolve_email mail user)); [destruct Hm|].
        destruct Hm as [<- | []]. cbn [mail_subject].
        split; [eexists; apply join_splitlines|].
        apply joined_subject_single_line.
      * left. unfold send_activation_email in Hm.
        erewrite bind_Ret in Hm
          by (rewrite get_user_by_name_run, Hu; reflexivity).
        erewrite bind_Raise in Hm
          by (rewrite get_by_user_run, Hp; reflexivity).
        exact Hm.
    + left. unfold send_activation_email in Hm.
      erewrite bind_Raise in Hm
        by (rewrite get_user_by_name_run, Hu; reflexivity).
      exact Hm.
  - intros user profile Hu Hp.
    pose proof (send_activation_email_sends name extra mail tb ts e w
                  user profile Hu Hp) as Hrun.
    fold r in Hrun. split.
    + intros Hblank. rewrite Hrun, Hblank, app_nil_r. split; reflexivity.
    + intros Hto.
      destruct (strip (resolve_email mail user)) eqn:Hs; [contradiction|].
      eexists. split; [exact Hrun|]. cbn [mail_subject mail_to].
      split; [apply join_splitlines|].
      split; [apply joined_subject_single_line|].
      split; [apply joined_subject_single_line | reflexivity].
Qed.

End Mailer.

(** ** Key generation and account creation *)

Lemma be_bytes_length (n : nat) (x : Z) : List.length (be_bytes n x) = n.
Proof.
  revert x; induction n as [|n IH]; intros x; simpl; [reflexivity|].
  rewrite length_app, IH. simpl. lia.
Qed.

Lemma sha1_digest_length (msg : list Z) : List.length (sha1_digest msg) = 20%nat.
Proof.
  unfold sha1_digest.
  destruct (fold_left sha1_block _ sha1_init) as [[[[h0 h1] h2] h3] h4].
  rewrite !length_app, !be_bytes_length. reflexivity.
Qed.

Lemma hex_digit_lower_hex (d : Z) : is_lower_hex (hex_digit d) = true.
Proof.
  unfold hex_digit.
  assert (Hlt : (Z.to_nat (d mod 16) < 16)%nat).
  { pose proof (Z.mod_pos_bound d 16 ltac:(lia)). lia. }
  remember (Z.to_nat (d mod 16)) as k eqn:Hk. clear Hk.
  do 16 (destruct k as [|k]; [reflexivity|]). lia.
Qed.

Lemma hex_of_bytes_shape (bytes : list Z) :
  List.length (flat_map hex_of_byte bytes) = (2 * List.length bytes)%nat
  /\ forallb is_lower_hex (flat_map hex_of_byte bytes) = true.
Proof.
  induction bytes as [|b bytes [Hl Hh]]; [split; reflexivity|].
  cbn [flat_map hex_of_byte app List.length forallb].
  rewrite !hex_digit_lower_hex, Hh, Hl. split; [lia | reflexivity].
Qed.

Lemma sha1_hexdigest_shape (msg : list Z) :
  List.length (sha1_hexdigest msg) = 40%nat
  /\ forallb is_lower_hex (sha1_hexdigest msg) = true.
Proof.
  unfold sha1_hexdigest.
  destruct (hex_of_bytes_shape (sha1_digest msg)) as [Hl Hh].
  rewrite sha1_digest_length in Hl. split; assumption.
Qed.

Lemma sha1_hexdigest_matches (msg : list Z) :
  re_search SHA1_RE (sha1_hexdigest msg) = true.
Proof.
  apply SHA1_RE_search_iff. exists (sha1_hexdigest msg).
  destruct (sha1_hexdigest_shape msg). auto.
Qed.

Lemma next_id_fresh (ids : list nat) (x : nat) :
  In x ids -> (x < next_id ids)%nat.
Proof.
  unfold next_id. induction ids as [|a ids IH]; simpl; [contradiction|].
  intros [-> | H]; [lia|]. specialize (IH H). lia.
Qed.

Lemma update_row_last {A} (same : A -> bool) (r r0 : A) (l : list A) :
  (forall x, In x l -> same x = false) -> same r0 = true ->
  update_row same r (l ++ [r0]) = l ++ [r].
Proof.
  intros Hl Hr. induction l as [|a l IH]; simpl.
  - rewrite Hr. reflexivity.
  - rewrite (Hl a) by (left; reflexivity). f_equal.
    apply IH. intros; apply Hl; right; assumption.
Qed.

Lemma encode_ascii_app (a b : text) (xa xb : list Z) :
  encode_ascii a = Some xa -> encode_ascii b = Some xb ->
  encode_ascii (a ++ b) = Some (xa ++ xb).
Proof.
  revert xa; induction a as [|c a IH]; intros xa; simpl.
  - intros [= <-] Hb. exact Hb.
  - destruct (N.ltb c 128); [|discriminate].
    destruct (encode_ascii a) as [ya|]; [|discriminate].
    intros [= <-] Hb. rewrite (IH ya eq_refl Hb). reflexivity.
Qed.

Lemma encode_ascii_hex (t : text) :
  forallb is_lower_hex t = true ->
  encode_ascii t = Some (map Z.of_N t).
Proof.
  induction t as [|c t IH]; simpl; [reflexivity|].
  intros H. apply andb_true_iff in H. destruct H as [Hc Ht].
  rewrite (IH Ht).
  assert (Hlt : N.ltb c 128 = true).
  { unfold is_lower_hex, in_class in Hc. cbn [existsb fst snd] in Hc.
    rewrite orb_false_r in Hc. apply N.ltb_lt.
    apply orb_true_iff in Hc.
    destruct Hc as [Hc | Hc]; apply andb_true_iff in Hc;
      destruct Hc as [_ Hc]; apply N.leb_le in Hc; lia. }
  rewrite Hlt. reflexivity.
Qed.

Lemma forallb_firstn {A} (f : A -> bool) (n : nat) (l : list A) :
  forallb f l = true -> forallb f (firstn n l) = true.
Proof.
  revert n; induction l as [|a l IH]; intros [|n]; simpl; auto.
  intros H. apply andb_true_iff in H. destruct H as [Ha H].
  rewrite Ha. apply IH. exact H.
Qed.

(** A generated key is the hexadecimal SHA-1 digest of a five-digit salt
    followed by the user name: forty lowercase hexadecimal digits. *)
Lemma generate_activation_key_run (rnd : text) (user : User) rb nb e w :
  encode_ascii rnd = Some rb ->
  encode_ascii (username user) = Some nb ->
  let salt := firstn 5 (sha1_hexdigest rb) in
  generate_activation_key rnd user e w
  = (Ret (sha1_hexdigest (map Z.of_N salt ++ nb)), w)
  /\ List.length salt = 5%nat.
Proof.
  intros Hr Hn salt. split.
  - unfold generate_activation_key, sha_hexdigest. rewrite Hr.
    unfold bind, ret. fold salt.
    rewrite (encode_ascii_app salt (username user) (map Z.of_N salt) nb);
      [reflexivity | | assumption].
    apply encode_ascii_hex. apply forallb_firstn.
    apply sha1_hexdigest_shape.
  - unfold salt. rewrite firstn_length_le; [reflexivity|].
    rewrite (proj1 (sha1_hexdigest_shape rb)). lia.
Qed.

Section Creation.

Variable render_to_string : text -> context -> text.
Variable current_site : Site.
Variable make_password : text -> text.
Variable normalize_email : text -> text.

(** C6 (what the code does). [models.py] never binds the name
    [transaction], so every call of [create_inactive_user] stops at
    [with transaction.atomic()] with a [NameError]; no account and no
    registration record is created. *)
Theorem create_inactive_user_raises_NameError
    rnd name pass mail send_email profile_callback extra first last tb ts e w :
  create_inactive_user render_to_string current_site make_password
    normalize_email rnd name pass mail send_email profile_callback extra
    first last tb ts e w
  = (Raise (NameError "transaction"), w).
Proof. reflexivity. Qed.

(** With [transaction] bound, the body does what is expected of it: one
    inactive account and one record with a forty-digit key. *)
Lemma create_inactive_user_with_transaction
    rnd name pass mail first last tb ts e w rb nb :
  store_ok (store w) = true ->
  existsb (has_username name) (users (store w)) = false ->
  encode_ascii rnd = Some rb ->
  encode_ascii name = Some nb ->
  exists new_user profile,
    create_inactive_user_in render_to_string current_site make_password
      normalize_email ("transaction"%string :: module_globals)
      rnd name pass mail false None None first last tb ts e w
    = (Ret new_user,
       mkWorld (mkStore (users (store w) ++ [new_user])
                        (profiles (store w) ++ [profile]))
               (queries w) (outbox w))
    /\ is_active new_user = false
    /\ username new_user = name
    /\ profile_user_id profile = user_id new_user
    /\ List.length (activation_key profile) = 40%nat
    /\ forallb is_lower_hex (activation_key profile) = true
    /\ activation_key profile
       = sha1_hexdigest
           (map Z.of_N (firstn 5 (sha1_hexdigest rb)) ++ nb).
Proof.
  intros Hok Hfree Hr Hn.
  set (uid := next_id (map user_id (users (store w)))).
  set (new_user := mkUser uid name first last (normalize_email mail)
                          (make_password pass) false (now e)).
  set (key := sha1_hexdigest (map Z.of_N (firstn 5 (sha1_hexdigest rb)) ++ nb)).
  set (profile := mkProfile (next_id (map profile_id (profiles (store w))))
                            uid key).
  exists new_user, profile.
  assert (Hfresh : forall x, In x (users (store w)) -> has_id uid x = false).
  { intros x Hx. unfold has_id. apply Nat.eqb_neq.
    pose proof (next_id_fresh (map user_id (users (store w))) (user_id x)
                  (in_map user_id _ _ Hx)). fold uid in H. lia. }
  assert (Hnoprof : existsb (has_user uid) (profiles (store w)) = false).
  { destruct (existsb (has_user uid) (profiles (store w))) eqn:E; [|reflexivity].
    apply existsb_exists in E. destruct E as [p [Hp Hpu]].
    apply Nat.eqb_eq in Hpu.
    destruct (store_ok_foreign_key _ p Hok Hp) as [x [Hx [Hid _]]].
    pose proof (Hfresh x Hx) as Hne. unfold has_id in Hne.
    apply Nat.eqb_neq in Hne. congruence. }
  split; [|repeat split; try reflexivity; apply sha1_hexdigest_shape].
  unfold create_inactive_user_in.
  assert (Hbody :
    (global_name ("transaction"%string :: module_globals) "transaction" ;;
     atomic (
       u0 <- create_user make_password normalize_email name mail pass ;;
       let u1 := set_names (set_is_active u0 false) first last in
       save_user u1 ;;
       create_profile rnd u1 ;;
       ret u1)) e w
    = (Ret new_user,
       mkWorld (mkStore (users (store w) ++ [new_user])
                        (profiles (store w) ++ [profile]))
               (queries w) (outbox w))).
  { unfold bind at 1. cbn [global_name existsb String.eqb Ascii.eqb Bool.eqb orb ret].
    unfold atomic.
    assert (Hcreate :
      create_user make_password normalize_email name mail pass e w
      = (Ret (mkUser uid name [] [] (normalize_email mail)
                     (make_password pass) true (now e)),
         mkWorld (mkStore (users (store w)
                           ++ [mkUser uid name [] [] (normalize_email mail)
                                      (make_password pass) true (now e)])
                          (profiles (store w)))
                 (queries w) (outbox w))).
    { unfold create_user, bind, ask, get_world. rewrite Hfree. reflexivity. }
    rewrite (bind_Ret _ _ _ _ _ _ Hcreate). cbv zeta.
    change (set_names (set_is_active
              (mkUser uid name [] [] (normalize_email mail)
                      (make_password pass) true (now e)) false) first last)
      with new_user.
    assert (Hsave :
      save_user new_user e
        (mkWorld (mkStore (users (store w)
                           ++ [mkUser uid name [] [] (normalize_email mail)
                                      (make_password pass) true (now e)])
                          (profiles (store w)))
                 (queries w) (outbox w))
      = (Ret tt,
         mkWorld (mkStore (users (store w) ++ [new_user]) (profiles (store w)))
                 (queries w) (outbox w))).
    { unfold save_user, bind, get_world, put_store.
      cbn [store users profiles queries outbox user_id new_user].
      rewrite update_row_last; [reflexivity | exact Hfresh |].
      unfold has_id. apply Nat.eqb_refl. }
    rewrite (bind_Ret _ _ _ _ _ _ Hsave).
    assert (Hprofile :
      create_profile rnd new_user e
        (mkWorld (mkStore (users (store w) ++ [new_user]) (profiles (store w)))
                 (queries w) (outbox w))
      = (Ret profile,
         mkWorld (mkStore (users (store w) ++ [new_user])
                          (profiles (store w) ++ [profile]))
                 (queries w) (outbox w))).
    { unfold create_profile.
      destruct (generate_activation_key_run rnd new_user rb nb e
                  (mkWorld (mkStore (users (store w) ++ [new_user])
                                    (profiles (store w)))
                           (queries w) (outbox w)) Hr Hn) as [Hgen _].
      rewrite (bind_Ret _ _ _ _ _ _ Hgen).
      unfold bind, get_world, put_store.
      cbn [store users profiles queries outbox user_id new_user].
      rewrite Hnoprof. reflexivity. }
    rewrite (bind_Ret _ _ _ _ _ _ Hprofile). reflexivity. }
  rewrite (bind_Ret _ _ _ _ _ _ Hbody). reflexivity.
Qed.

End Creation.

(** ** The theorems at work on the sample data *)

Lemma activation_key_expired_iff_witness :
  filter (has_id (profile_user_id alice_profile)) (users (store sample_world))
  = [alice]
  /\ representable (sample_env 7 (7 * microseconds_per_day)) alice
       alice_profile = true
  /\ activation_key_expired alice_profile
       (sample_env 7 (7 * microseconds_per_day)) sample_world
     = (Ret true, sample_world)
  /\ activation_key_expired alice_profile
       (sample_env 0 (10000 * microseconds_per_day)) sample_world
     = (Ret false, sample_world)
  /\ representable (sample_env 1000000000 0) alice
       (mkProfile 1 1 ACTIVATED) = false
  /\ activation_key_expired (mkProfile 1 1 ACTIVATED)
       (sample_env 1000000000 0) consumed_world
     = (Raise OverflowError, consumed_world).
Proof.
  split; [reflexivity|]. split; [reflexivity|]. split; [|split; [|split]].
  - destruct (proj1 (activation_key_expired_iff alice_profile alice
                       (sample_env 7 (7 * microseconds_per_day)) sample_world
                       eq_refl) eq_refl) as [b [Hrun [Hiff _]]].
    rewrite Hrun. f_equal. f_equal. apply Hiff. right.
    cbn. unfold microseconds_per_day. lia.
  - destruct (proj1 (activation_key_expired_iff alice_profile alice
                       (sample_env 0 (10000 * microseconds_per_day))
                       sample_world eq_refl) eq_refl)
      as [b [Hrun [_ Hzero]]].
    rewrite Hrun. f_equal. f_equal.
    destruct b; [|reflexivity].
    assert (H : activation_key alice_profile = ACTIVATED)
      by (apply Hzero; [cbn; lia | reflexivity]).
    discriminate H.
  - reflexivity.
  - apply (proj2 (activation_key_expired_iff (mkProfile 1 1 ACTIVATED) alice
                    (sample_env 1000000000 0) consumed_world eq_refl)).
    reflexivity.
Defined.

(** C2 (counterexample). With a window of 3000000 days and an account
    created on 2024-01-01, the creation time plus the window is past
    [datetime.max]: the expiry predicate raises [OverflowError] and so
    returns no boolean at all, although the token is not the sentinel,
    the window is positive and no clock reading is as late as the
    creation time plus the window. *)
Lemma activation_key_expired_overflows :
  activation_key_expired dana_profile
    (sample_env 3000000 (738985 * microseconds_per_day)) dana_world
  = (Raise OverflowError, dana_world)
  /\ ~ (exists b : bool,
          activation_key_expired dana_profile
            (sample_env 3000000 (738985 * microseconds_per_day)) dana_world
          = (Ret b, dana_world)
          /\ (b = true <->
              activation_key dana_profile = ACTIVATED
              \/ (0 < 3000000
                  /\ date_joined dana + 3000000 * microseconds_per_day
                     <= 738985 * microseconds_per_day))).
Proof.
  split; [reflexivity|]. intros [b [H _]]. discriminate H.
Qed.

Lemma activate_user_pipeline_witness :
  store_ok (store sample_world) = true
  /\ no_overflow (sample_env 7 0) (store sample_world) = true
  /\ (List.length (filter (has_key sample_key) (profiles (store sample_world)))
      <= 1)%nat
  /\ is_active alice = false
  /\ exists u' w2,
       activate_user sample_key None (sample_env 7 0) sample_world
       = (Ret (Activated u'), w2)
       /\ is_active u' = true
       /\ In u' (users (store w2))
       /\ In (mkProfile 1 1 ACTIVATED) (profiles (store w2)).
Proof.
  assert (H1 : store_ok (store sample_world) = true) by reflexivity.
  assert (H0 : no_overflow (sample_env 7 0) (store sample_world) = true)
    by reflexivity.
  assert (H2 : (List.length (filter (has_key sample_key)
                               (profiles (store sample_world))) <= 1)%nat)
    by (simpl; lia).
  split; [exact H1|]. split; [exact H0|]. split; [exact H2|].
  split; [reflexivity|].
  generalize (activate_user_pipeline sample_key None (sample_env 7 0)
                sample_world H1 H0 H2).
  cbv zeta. change (re_search SHA1_RE sample_key) with true.
  change (filter (has_key sample_key) (profiles (store sample_world)))
    with [alice_profile].
  cbv iota. intros [u [Hu [expired [Hexp Hrun]]]].
  injection Hu as <-. injection Hexp as <-.
  destruct Hrun as [u' [w2 [Hrun [_ [_ Heff]]]]].
  destruct Heff as [_ [Hact [Hin [_ [_ [Hrec _]]]]]].
  exists u', w2. split; [exact Hrun|]. split; [exact Hact|].
  split; [exact Hin | exact Hrec].
Defined.

Lemma activate_user_failure_keeps_store_witness :
  re_search SHA1_RE ACTIVATED = false
  /\ exists w',
       activate_user ACTIVATED None (sample_env 7 0) consumed_world
       = (Ret PyFalse, w')
       /\ store w' = store consumed_world.
Proof.
  split; [reflexivity|].
  apply (proj2 (activate_user_failure_keeps_store ACTIVATED None
                  (sample_env 7 0) consumed_world)).
  left. reflexivity.
Defined.

Lemma activation_consumes_token_witness :
  store_ok (store sample_world) = true
  /\ re_search SHA1_RE sample_key = true
  /\ exists w2,
       activate_user sample_key None (sample_env 7 0) sample_world
       = (Ret (Activated (set_is_active alice true)), w2)
       /\ forall cb e,
            activate_user sample_key cb e w2
            = (Ret PyFalse, logged w2 (QGetKey sample_key)).
Proof.
  split; [reflexivity|]. split; [reflexivity|].
  destruct (activation_consumes_token sample_key None (sample_env 7 0)
              sample_world alice_profile alice
              eq_refl eq_refl eq_refl eq_refl eq_refl
              (fun f (H : None = Some f) =>
                 match H in _ = o
                       return match o with
                              | None => True
                              | Some _ => _
                              end
                 with eq_refl => I end))
    as [w2 [Hfirst [_ [_ [_ [_ Hlater]]]]]].
  exists w2. split; [exact Hfirst|].
  intros cb e. apply (Hlater w2 (replayed_refl _ _)).
Defined.

Lemma seven_day_window_witness :
  store_ok (store sample_world) = true
  /\ ACCOUNT_ACTIVATION_DAYS (settings (sample_env 7 0)) = 7
  /\ is_datetime (date_joined alice + 7 * microseconds_per_day) = true
  /\ is_active alice = false
  /\ (exists u' w2,
        activate_user sample_key None
          (sample_env 7 (6 * microseconds_per_day)) sample_world
        = (Ret (Activated u'), w2)
        /\ is_active u' = true
        /\ In u' (users (store w2))
        /\ In (mkProfile 1 1 ACTIVATED) (profiles (store w2)))
  /\ activate_user sample_key None
       (sample_env 7 (7 * microseconds_per_day)) sample_world
     = (Ret PyFalse, logged sample_world (QGetKey sample_key)).
Proof.
  split; [reflexivity|]. split; [reflexivity|]. split; [reflexivity|].
  split; [reflexivity|]. split.
  - destruct (proj1 (seven_day_window sample_key None
                       (sample_env 7 (6 * microseconds_per_day)) sample_world
                       alice_profile alice
                       eq_refl eq_refl eq_refl eq_refl eq_refl eq_refl)
                eq_refl)
      as [_ [u' [w2 [Hrun [_ [_ Heff]]]]]].
    destruct Heff as [_ [Hact [Hin [_ [_ [Hrec _]]]]]].
    exists u', w2. split; [exact Hrun|]. split; [exact Hact|].
    split; [exact Hin | exact Hrec].
  - apply (proj2 (seven_day_window sample_key None
                    (sample_env 7 (7 * microseconds_per_day)) sample_world
                    alice_profile alice
                    eq_refl eq_refl eq_refl eq_refl eq_refl eq_refl)).
    discriminate.
Defined.

Lemma authenticate_first_match_witness :
  find (has_key ACTIVATED) (profiles (store consumed_world))
  = Some (mkProfile 1 1 ACTIVATED)
  /\ is_active alice = false
  /\ authenticate (Some ACTIVATED) (sample_env 7 0) consumed_world
     = (Ret (Some alice), logged consumed_world (QFilterKey ACTIVATED))
  /\ authenticate (Some sample_key)
       (sample_env 7 (8 * microseconds_per_day)) sample_world
     = (Ret (Some alice), logged sample_world (QFilterKey sample_key)).
Proof.
  split; [reflexivity|]. split; [reflexivity|]. split.
  - apply (proj2 (proj2 (authenticate_first_match ACTIVATED (sample_env 7 0)
                           consumed_world))
             (mkProfile 1 1 ACTIVATED) alice eq_refl eq_refl eq_refl).
  - apply (proj1 (proj2 (authenticate_first_match sample_key
                           (sample_env 7 (8 * microseconds_per_day))
                           sample_world))
             alice_profile alice eq_refl eq_refl).
Defined.

Lemma delete_expired_users_purges_witness :
  store_ok (store three_accounts) = true
  /\ no_overflow (sample_env 7 (7 * microseconds_per_day))
       (store three_accounts) = true
  /\ exists w',
       delete_expired_users (sample_env 7 (7 * microseconds_per_day))
         three_accounts = (Ret tt, w')
       /\ users (store w') = [bob]
       /\ profiles (store w') = [mkProfile 2 2 bob_key].
Proof.
  split; [reflexivity|]. split; [reflexivity|].
  destruct (delete_expired_users_purges
              (sample_env 7 (7 * microseconds_per_day)) three_accounts
              eq_refl eq_refl) as [w' [Hrun [Hu [Hp _]]]].
  exists w'. split; [exact Hrun|]. split.
  - rewrite Hu. reflexivity.
  - rewrite Hp. reflexivity.
Defined.

Lemma activation_email_subject_and_blank_address_witness :
  strip (resolve_email None carol) = []
  /\ send_activation_email two_lines example_site (codes "carol") None None
       None None (sample_env 7 0) three_accounts
     = (Ret tt, logged three_accounts (QGetUser 3))
  /\ strip (resolve_email None bob) <> []
  /\ exists m,
       outbox (snd (send_activation_email two_lines example_site
                      (codes "bob") None None None None
                      (sample_env 7 0) three_accounts)) = [m]
       /\ mail_subject m = codes "Activatenow"
       /\ mail_to m = [codes "bob@example.com"].
Proof.
  split; [reflexivity|]. split; [|split; [discriminate|]].
  - apply (proj1 (proj2 (activation_email_subject_and_blank_address two_lines
                           example_site (codes "carol") None None None None
                           (sample_env 7 0) three_accounts)
                    carol (mkProfile 3 3 ACTIVATED) eq_refl eq_refl)
             eq_refl).
  - destruct (proj2 (proj2 (activation_email_subject_and_blank_address
                              two_lines example_site (codes "bob") None None
                              None None (sample_env 7 0) three_accounts)
                       bob (mkProfile 2 2 bob_key) eq_refl eq_refl)
                ltac:(discriminate))
      as [m [Hrun [Hsubject [_ [_ Hto]]]]].
    exists m. rewrite Hrun. split; [reflexivity|].
    split; [rewrite Hsubject; reflexivity | exact Hto].
Defined.

(* ================================================================== *)
(** * Further properties of the code *)
(* ================================================================== *)

(** ** Key generation and record creation *)

(** X1. For a user name and a random string in ASCII,
    [generate_activation_key] returns forty lowercase hexadecimal digits:
    a key that the syntax check of [activate_user] accepts and that is
    never the sentinel. It reads and writes nothing. *)
Theorem generated_key_is_a_token (rnd : text) (user : User) rb nb e w :
  encode_ascii rnd = Some rb ->
  encode_ascii (username user) = Some nb ->
  exists key,
    generate_activation_key rnd user e w = (Ret key, w)
    /\ List.length key = 40%nat
    /\ forallb is_lower_hex key = true
    /\ re_search SHA1_RE key = true
    /\ key <> ACTIVATED.
Proof.
  intros Hr Hn.
  destruct (generate_activation_key_run rnd user rb nb e w Hr Hn) as [Hrun _].
  eexists. split; [exact Hrun|].
  destruct (sha1_hexdigest_shape
              (map Z.of_N (firstn 5 (sha1_hexdigest rb)) ++ nb)) as [Hl Hh].
  repeat split; try assumption.
  - apply sha1_hexdigest_matches.
  - apply sentinel_not_token, sha1_hexdigest_matches.
Qed.

Lemma generated_key_is_a_token_witness :
  encode_ascii (codes "0.8444218515250481") <> None
  /\ exists key,
       generate_activation_key (codes "0.8444218515250481") alice
         (sample_env 7 0) sample_world = (Ret key, sample_world)
       /\ re_search SHA1_RE key = true.
Proof.
  split; [discriminate|].
  destruct (generated_key_is_a_token (codes "0.8444218515250481") alice
              _ _ (sample_env 7 0) sample_world eq_refl eq_refl)
    as [key [Hrun [_ [_ [Hre _]]]]].
  exists key. split; assumption.
Defined.

Lemma NoDup_snoc (l : list nat) (x : nat) :
  NoDup l -> ~ In x l -> NoDup (l ++ [x]).
Proof.
  induction l as [|a l IH]; simpl; intros Hnd Hx.
  - constructor; [intros [] | constructor].
  - inversion Hnd as [|? ? Ha Hl]; subst. constructor.
    + rewrite in_app_iff. intros [H | [H | []]]; [contradiction|].
      apply Hx. left. symmetry. exact H.
    + apply IH; [assumption|]. intros H. apply Hx. right. exact H.
Qed.

Lemma store_ok_intro (s : Store) :
  NoDup (map user_id (users s)) ->
  NoDup (map profile_id (profiles s)) ->
  NoDup (map profile_user_id (profiles s)) ->
  (forall p, In p (profiles s) ->
             exists u, In u (users s) /\ user_id u = profile_user_id p) ->
  store_ok s = true.
Proof.
  intros H1 H2 H3 H4. unfold store_ok.
  rewrite !andb_true_iff. repeat split; try (apply distinct_NoDup; assumption).
  apply forallb_forall. intros p Hp. destruct (H4 p Hp) as [u [Hu Hid]].
  apply existsb_exists. exists u. split; [assumption|].
  unfold has_id. apply Nat.eqb_eq. exact Hid.
Qed.

Lemma store_ok_elim (s : Store) :
  store_ok s = true ->
  forall p, In p (profiles s) ->
            exists u, In u (users s) /\ user_id u = profile_user_id p.
Proof.
  intros Hok p Hp. destruct (store_ok_foreign_key s p Hok Hp) as [u [Hu [Hid _]]].
  exists u. auto.
Qed.

Lemma no_profile_of (uid : nat) (ps : list RegistrationProfile) :
  existsb (has_user uid) ps = false -> ~ In uid (map profile_user_id ps).
Proof.
  intros H Hin. apply in_map_iff in Hin. destruct Hin as [p [Hid Hp]].
  assert (Ht : existsb (has_user uid) ps = true).
  { apply existsb_exists. exists p. split; [assumption|].
    unfold has_user. apply Nat.eqb_eq. exact Hid. }
  congruence.
Qed.



Lemma sha_hexdigest_Ret_inv (t : text) e w key w' :
  sha_hexdigest t e w = (Ret key, w') ->
  w' = w /\ re_search SHA1_RE key = true.
Proof.
  unfold sha_hexdigest. destruct (encode_ascii t) as [bytes|].
  - intros [= <- <-]. split; [reflexivity | apply sha1_hexdigest_matches].
  - discriminate.
Qed.

Lemma generate_activation_key_Ret_inv (rnd : text) (user : User) e w key w' :
  generate_activation_key rnd user e w = (Ret key, w') ->
  w' = w /\ re_search SHA1_RE key = true.
Proof.
  unfold generate_activation_key. intros H.
  apply bind_Ret_inv in H. destruct H as [digest [w1 [H1 H2]]].
  apply sha_hexdigest_Ret_inv in H1. destruct H1 as [-> _].
  apply sha_hexdigest_Ret_inv in H2. exact H2.
Qed.

Lemma create_profile_Ret_inv (rnd : text) (user : User) e w p w' :
  create_profile rnd user e w = (Ret p, w') ->
  existsb (has_user (user_id user)) (profiles (store w)) = false
  /\ re_search SHA1_RE (activation_key p) = true
  /\ profile_user_id p = user_id user
  /\ profile_id p = next_id (map profile_id (profiles (store w)))
  /\ w' = mkWorld (mkStore (users (store w)) (profiles (store w) ++ [p]))
                  (queries w) (outbox w).
Proof.
  unfold create_profile. intros H.
  apply bind_Ret_inv in H. destruct H as [key [w1 [Hgen H]]].
  apply generate_activation_key_Ret_inv in Hgen. destruct Hgen as [-> Hre].
  unfold bind, get_world in H.
  destruct (existsb (has_user (user_id user)) (profiles (store w)));
    [discriminate|].
  cbn in H. injection H as <- <-. auto.
Qed.

Lemma store_ok_add_profile (s : Store) (p : RegistrationProfile) (u : User) :
  store_ok s = true ->
  In u (users s) -> profile_user_id p = user_id u ->
  existsb (has_user (user_id u)) (profiles s) = false ->
  profile_id p = next_id (map profile_id (profiles s)) ->
  store_ok (mkStore (users s) (profiles s ++ [p])) = true.
Proof.
  intros Hok Hu Hid Hnone Hfresh.
  apply store_ok_intro; cbn [users profiles].
  - apply store_ok_users; assumption.
  - rewrite map_app. apply NoDup_snoc; [apply store_ok_profiles; assumption|].
    cbn [map]. rewrite Hfresh. intros Hin.
    pose proof (next_id_fresh _ _ Hin). lia.
  - rewrite map_app. apply NoDup_snoc;
      [apply store_ok_one_to_one; assumption|].
    cbn [map]. rewrite Hid. apply no_profile_of; assumption.
  - intros q Hq. apply in_app_iff in Hq. destruct Hq as [Hq | [<- | []]].
    + apply store_ok_elim; assumption.
    + exists u. auto.
Qed.

(** X3. Registration and activation compose: the key that
    [create_profile] has stored for an account activates that very
    account, provided no older record carries the same key, the
    deadline of the record is a representable date and the record is
    not expired at the time of the call. The call hands to the callback
    and returns the account with [is_active] true and every other field
    as before; the store then holds that account with [is_active] true
    and the record with the key ALREADY_ACTIVATED, and no other row has
    changed. *)
Theorem created_key_activates_its_account
    (rnd : text) (user : User) e w p w' e' (cb : option callback) :
  store_ok (store w) = true ->
  In user (users (store w)) ->
  create_profile rnd user e w = (Ret p, w') ->
  filter (has_key (activation_key p)) (profiles (store w)) = [] ->
  representable e' user p = true ->
  expired_at e' user p = false ->
  exists u' w2,
    activate_user (activation_key p) cb e' w'
    = (match cb with
       | Some f => f u'
       | None => ret tt
       end ;;
       ret (Activated u')) e' w2
    /\ queries w2 = queries w' ++ [QGetKey (activation_key p)]
    /\ outbox w2 = outbox w'
    /\ activation_effect (store w') (store w2) user p u'.
Proof.
  intros Hok Hu Hrun Hfree Hrep Hfresh.
  destruct (create_profile_Ret_inv _ _ _ _ _ _ Hrun)
    as [Hnone [Hre [Hid [Hpid ->]]]].
  assert (Hok' : store_ok (mkStore (users (store w)) (profiles (store w) ++ [p]))
                 = true)
    by (apply (store_ok_add_profile _ p user); assumption).
  assert (Hfk : filter (has_id (profile_user_id p)) (users (store w)) = [user]).
  { rewrite Hid. apply (filter_key_unique user_id);
      [apply store_ok_users|]; assumption. }
  set (w1 := mkWorld (mkStore (users (store w)) (profiles (store w) ++ [p]))
                     (queries w) (outbox w)) in *.
  exists (set_is_active user true),
         (mkWorld (activated_store (store w1) user p)
                  (queries w1 ++ [QGetKey (activation_key p)]) (outbox w1)).
  split; [|split; [reflexivity|split; [reflexivity|]]].
  - apply activate_user_success; subst w1; cbn [store users profiles];
      try assumption.
    + rewrite filter_app, Hfree. cbn [filter app]. unfold has_key.
      rewrite text_eqb_refl. reflexivity.
    + rewrite (activation_key_expired_run p user); [|exact Hfk|exact Hrep].
      rewrite Hfresh. reflexivity.
  - subst w1. cbn [store]. apply activated_store_effect; cbn [users profiles];
      [exact Hu|].
    apply in_or_app. right. left. reflexivity.
Qed.

Lemma created_key_activates_its_account_witness :
  exists p w',
    create_profile sample_random alice (sample_env 7 0) unregistered_world
    = (Ret p, w')
    /\ representable (sample_env 7 (6 * microseconds_per_day)) alice p = true
    /\ expired_at (sample_env 7 (6 * microseconds_per_day)) alice p = false
    /\ exists u' w2,
         activate_user (activation_key p) None
           (sample_env 7 (6 * microseconds_per_day)) w'
         = (Ret (Activated u'), w2)
         /\ is_active u' = true
         /\ In u' (users (store w2))
         /\ In (mkProfile (profile_id p) (profile_user_id p) ACTIVATED)
              (profiles (store w2)).
Proof.
  destruct (create_profile sample_random alice (sample_env 7 0)
              unregistered_world) as [[p | x] w'] eqn:Hrun;
    [|exfalso; vm_compute in Hrun; discriminate Hrun].
  exists p, w'. split; [reflexivity|].
  assert (Hns : text_eqb (activation_key p) ACTIVATED = false).
  { destruct (create_profile_Ret_inv _ _ _ _ _ _ Hrun) as [_ [Hre _]].
    apply text_eqb_neq, sentinel_not_token. exact Hre. }
  assert (Hrep : representable (sample_env 7 (6 * microseconds_per_day))
                   alice p = true)
    by (unfold representable; rewrite Hns; reflexivity).
  assert (Hfresh : expired_at (sample_env 7 (6 * microseconds_per_day))
                     alice p = false)
    by (unfold expired_at; rewrite Hns; reflexivity).
  split; [exact Hrep|]. split; [exact Hfresh|].
  destruct (created_key_activates_its_account sample_random alice
              (sample_env 7 0) unregistered_world p w'
              (sample_env 7 (6 * microseconds_per_day)) None
              eq_refl (or_introl eq_refl) Hrun eq_refl Hrep Hfresh)
    as [u' [w2 [Hact [_ [_ Heff]]]]].
  exists u', w2. split; [exact Hact|].
  destruct Heff as [_ [Hactive [Hin [_ [_ [Hrec _]]]]]].
  split; [exact Hactive|]. split; [exact Hin|exact Hrec].
Defined.

(** ** Expiry *)

(** X4. Expiry is permanent: a record that [activation_key_expired]
    reports expired at one clock reading is reported expired at every
    later reading under the same settings. *)
Theorem expiry_is_monotone_in_time (p : RegistrationProfile) e e' w :
  activation_key_expired p e w = (Ret true, w) ->
  settings e' = settings e ->
  now e <= now e' ->
  activation_key_expired p e' w = (Ret true, w).
Proof.
  intros H Hs Hnow. unfold activation_key_expired in *.
  unfold bind at 1 in H. unfold bind at 1. unfold ask in *.
  rewrite Hs.
  destruct (0 <? ACCOUNT_ACTIVATION_DAYS (settings e)); [|exact H].
  unfold bind at 1 in H. unfold bind at 1.
  rewrite timedelta_days_run in *.
  destruct (Z.abs (ACCOUNT_ACTIVATION_DAYS (settings e)) <=? timedelta_max_days);
    [|exact H].
  destruct (text_eqb (activation_key p) ACTIVATED); [reflexivity|].
  apply bind_Ret_inv in H. destruct H as [u [w1 [Hu H]]].
  pose proof (profile_user_pure _ _ _ _ _ Hu) as ->.
  assert (Hu' : profile_user p e' w = (Ret u, w)).
  { unfold profile_user, bind, get_world in *.
    destruct (filter (has_id (profile_user_id p)) (users (store w)))
      as [|a [|b rest]]; exact Hu. }
  rewrite (bind_Ret _ _ _ _ _ _ Hu').
  unfold bind in *. rewrite datetime_add_run in *.
  destruct (is_datetime _); [|discriminate H].
  unfold ret in *. injection H as H. f_equal. f_equal.
  apply Z.leb_le. apply Z.leb_le in H. lia.
Qed.

Lemma expiry_is_monotone_in_time_witness :
  activation_key_expired alice_profile
    (sample_env 7 (7 * microseconds_per_day)) sample_world
  = (Ret true, sample_world)
  /\ activation_key_expired alice_profile
       (sample_env 7 (10000 * microseconds_per_day)) sample_world
     = (Ret true, sample_world).
Proof.
  split; [reflexivity|].
  apply (expiry_is_monotone_in_time alice_profile
           (sample_env 7 (7 * microseconds_per_day))
           (sample_env 7 (10000 * microseconds_per_day)) sample_world).
  - reflexivity.
  - reflexivity.
  - discriminate.
Defined.

(** ** What activation leaves alone *)

Lemma same_key_same_row {A} (key : A -> nat) (l : list A) (x y : A) :
  NoDup (map key l) -> In x l -> In y l -> key x = key y -> x = y.
Proof.
  intros Hnd Hx Hy Hid.
  pose proof (filter_key_unique key y l Hnd Hy) as Hf.
  assert (Hin : In x (filter (fun z => Nat.eqb (key z) (key y)) l)).
  { apply filter_In. split; [assumption | apply Nat.eqb_eq; assumption]. }
  rewrite Hf in Hin. destruct Hin as [<- | []]. reflexivity.
Qed.

Lemma map_key_preserved {A} (key : A -> nat) (c : A -> bool) (g : A -> A)
    (l : list A) :
  (forall x, key (g x) = key x) ->
  map key (map (fun x => if c x then g x else x) l) = map key l.
Proof.
  intros Hg. rewrite map_map. apply map_ext. intros x.
  destruct (c x); [apply Hg | reflexivity].
Qed.

Lemma activated_store_ids (s : Store) (u : User) (p : RegistrationProfile) :
  map user_id (users (activated_store s u p)) = map user_id (users s)
  /\ map profile_id (profiles (activated_store s u p))
     = map profile_id (profiles s)
  /\ map profile_user_id (profiles (activated_store s u p))
     = map profile_user_id (profiles s).
Proof.
  unfold activated_store. cbn [users profiles].
  repeat split; apply map_key_preserved; reflexivity.
Qed.

Lemma store_ok_by_ids (s s' : Store) :
  map user_id (users s') = map user_id (users s) ->
  map profile_id (profiles s') = map profile_id (profiles s) ->
  map profile_user_id (profiles s') = map profile_user_id (profiles s) ->
  store_ok s = true -> store_ok s' = true.
Proof.
  intros Hu Hp Hpu Hok. apply store_ok_intro.
  - rewrite Hu. apply store_ok_users; assumption.
  - rewrite Hp. apply store_ok_profiles; assumption.
  - rewrite Hpu. apply store_ok_one_to_one; assumption.
  - intros p Hp'.
    assert (Hin : In (profile_user_id p) (map profile_user_id (profiles s)))
      by (rewrite <- Hpu; apply in_map; assumption).
    apply in_map_iff in Hin. destruct Hin as [q [Hq Hqin]].
    destruct (store_ok_elim s Hok q Hqin) as [x [Hx Hxid]].
    assert (Hin : In (user_id x) (map user_id (users s')))
      by (rewrite Hu; apply in_map; assumption).
    apply in_map_iff in Hin. destruct Hin as [y [Hy Hyin]].
    exists y. split; [assumption | congruence].
Qed.

(** Under the schema constraints a call of [activate_user] ends in one
    of four ways. *)
Lemma activate_user_cases (key : text) (cb : option callback) e w :
  store_ok (store w) = true ->
  activate_user key cb e w = (Ret PyFalse, w)
  \/ activate_user key cb e w = (Ret PyFalse, logged w (QGetKey key))
  \/ activate_user key cb e w
     = (Raise MultipleObjectsReturned, logged w (QGetKey key))
  \/ activate_user key cb e w
     = (Raise OverflowError, logged w (QGetKey key))
  \/ exists p u,
       In p (profiles (store w)) /\ activation_key p = key
       /\ re_search SHA1_RE key = true
       /\ In u (users (store w)) /\ user_id u = profile_user_id p
       /\ activate_user key cb e w
          = (match cb with
             | Some f => f (set_is_active u true)
             | None => ret tt
             end ;;
             ret (Activated (set_is_active u true))) e
              (mkWorld (activated_store (store w) u p)
                       (queries w ++ [QGetKey key]) (outbox w)).
Proof.
  intros Hok.
  destruct (re_search SHA1_RE key) eqn:Hre;
    [|left; apply activate_user_unmatched; assumption].
  right.
  destruct (filter (has_key key) (profiles (store w))) as [|p [|q rest]] eqn:Hf.
  - left. apply activate_user_not_found; assumption.
  - destruct (filter_has_key_In key p _ _ Hf) as [Hp Hk].
    destruct (store_ok_foreign_key _ p Hok Hp) as [u [Hu [Hid Hfk]]].
    pose proof (activation_key_expired_outcome p u e (logged w (QGetKey key))
                  Hfk) as Hb.
    destruct (representable e u p).
    + destruct (expired_at e u p).
      * left. apply (activate_user_expired key cb e w p); assumption.
      * right. right. right. exists p, u. repeat split; try assumption.
        apply activate_user_success; assumption.
    + right. right. left. unfold activate_user. rewrite Hre.
      pose proof (lookup_run key e w) as Hl. rewrite Hf in Hl.
      rewrite (bind_Ret _ _ _ _ _ _ Hl), (bind_Raise _ _ _ _ _ _ Hb).
      reflexivity.
  - right. left. unfold activate_user. rewrite Hre.
    pose proof (lookup_run key e w) as Hl. rewrite Hf in Hl.
    rewrite (bind_Raise _ _ _ _ _ _ Hl). reflexivity.
Qed.

Lemma quiet_callback_run (cb : option callback) (u : User) e w o w' :
  quiet cb ->
  (match cb with
   | Some f => f u
   | None => ret tt
   end ;; ret (Activated u)) e w = (o, w') ->
  o = Ret (Activated u) /\ store w' = store w.
Proof.
  intros Hq. destruct cb as [f|].
  - destruct (Hq f eq_refl u e w) as [w1 [Hf Hs]].
    rewrite (bind_Ret _ _ _ _ _ _ Hf). intros [= <- <-]. auto.
  - intros [= <- <-]. auto.
Qed.

(** X5. Whatever its outcome, a call of [activate_user] (with a callback
    that does not write to the database) neither creates nor deletes an
    account or a record and keeps the schema constraints: the primary
    keys and the foreign keys of both tables are as before. *)
Theorem activate_user_keeps_the_rows
    (key : text) (cb : option callback) e w o w' :
  store_ok (store w) = true ->
  quiet cb ->
  activate_user key cb e w = (o, w') ->
  map user_id (users (store w')) = map user_id (users (store w))
  /\ map profile_id (profiles (store w'))
     = map profile_id (profiles (store w))
  /\ map profile_user_id (profiles (store w'))
     = map profile_user_id (profiles (store w))
  /\ store_ok (store w') = true.
Proof.
  intros Hok Hq Hrun.
  destruct (activate_user_cases key cb e w Hok)
    as [H | [H | [H | [H | [p [u [_ [_ [_ [_ [_ H]]]]]]]]]]];
    rewrite H in Hrun.
  - injection Hrun as <- <-. auto.
  - injection Hrun as <- <-. auto.
  - injection Hrun as <- <-. auto.
  - injection Hrun as <- <-. auto.
  - destruct (quiet_callback_run cb _ e _ o w' Hq Hrun) as [_ Hs].
    destruct (activated_store_ids (store w) u p) as [H1 [H2 H3]].
    cbn [store] in Hs. rewrite Hs.
    repeat split; try assumption.
    apply (store_ok_by_ids (store w)); assumption.
Qed.

Lemma quiet_None : quiet None.
Proof. intros f H. discriminate H. Qed.

Lemma activate_user_keeps_the_rows_witness :
  store_ok (store three_accounts) = true
  /\ forall o w',
       activate_user bob_key None (sample_env 7 0) three_accounts = (o, w') ->
       map user_id (users (store w')) = [1; 2; 3]%nat
       /\ store_ok (store w') = true.
Proof.
  split; [reflexivity|]. intros o w' Hrun.
  destruct (activate_user_keeps_the_rows bob_key None (sample_env 7 0)
              three_accounts o w' eq_refl quiet_None Hrun)
    as [Hu [_ [_ Hok]]].
  split; [rewrite Hu; reflexivity | exact Hok].
Defined.

(** X6. An account whose record holds the sentinel cannot be activated
    again: whatever key is presented, [activate_user] does not return
    that account and leaves its row (so its active flag) and its record
    as they are. This is what keeps an account that an administrator has
    deactivated inactive. *)
Theorem consumed_account_is_not_reactivated
    (key : text) (cb : option callback) e w (u : User)
    (p : RegistrationProfile) o w' :
  store_ok (store w) = true ->
  quiet cb ->
  In u (users (store w)) ->
  In p (profiles (store w)) ->
  profile_user_id p = user_id u ->
  activation_key p = ACTIVATED ->
  activate_user key cb e w = (o, w') ->
  In u (users (store w'))
  /\ In p (profiles (store w'))
  /\ forall u', o = Ret (Activated u') -> user_id u' <> user_id u.
Proof.
  intros Hok Hq Hu Hp Hid Hkey Hrun.
  destruct (activate_user_cases key cb e w Hok)
    as [H | [H | [H | [H | [q [v [Hqin [Hqk [Hre [Hv [Hvid H]]]]]]]]]]];
    rewrite H in Hrun.
  - injection Hrun as <- <-. repeat split; try assumption. discriminate.
  - injection Hrun as <- <-. repeat split; try assumption. discriminate.
  - injection Hrun as <- <-. repeat split; try assumption. discriminate.
  - injection Hrun as <- <-. repeat split; try assumption. discriminate.
  - destruct (quiet_callback_run cb _ e _ o w' Hq Hrun) as [-> Hs].
    cbn [store] in Hs. rewrite Hs.
    assert (Hpq : q <> p).
    { intros ->. rewrite Hkey in Hqk. subst key. discriminate Hre. }
    assert (Hne1 : profile_id p <> profile_id q).
    { intros Heq. apply Hpq. symmetry.
      apply (same_key_same_row profile_id (profiles (store w)));
        auto using store_ok_profiles. }
    assert (Hne2 : user_id u <> user_id v).
    { intros Heq. apply Hpq.
      apply (same_key_same_row profile_user_id (profiles (store w)));
        auto using store_ok_one_to_one. congruence. }
    split; [|split].
    + cbn [activated_store users]. apply in_map_iff. exists u.
      unfold has_id. rewrite (proj2 (Nat.eqb_neq _ _) Hne2). auto.
    + cbn [activated_store profiles]. apply in_map_iff. exists p.
      rewrite (proj2 (Nat.eqb_neq _ _) Hne1). auto.
    + intros u' [= <-]. cbn [set_is_active user_id]. congruence.
Qed.

Lemma consumed_account_is_not_reactivated_witness :
  is_active carol = false
  /\ forall key e o w',
       activate_user key None e three_accounts = (o, w') ->
       In carol (users (store w')).
Proof.
  split; [reflexivity|]. intros key e o w' Hrun.
  apply (consumed_account_is_not_reactivated key None e three_accounts carol
           (mkProfile 3 3 ACTIVATED) o w' eq_refl quiet_None).
  - right; right; left; reflexivity.
  - right; right; left; reflexivity.
  - reflexivity.
  - reflexivity.
  - exact Hrun.
Defined.

(** X7. When two or more records carry the presented key,
    [activate_user] activates none of them: [get] raises
    [MultipleObjectsReturned], which the method does not catch, and the
    database is left as it was. *)
Theorem activate_user_ambiguous_key
    (key : text) (cb : option callback) e w p q rest :
  re_search SHA1_RE key = true ->
  filter (has_key key) (profiles (store w)) = p :: q :: rest ->
  activate_user key cb e w
  = (Raise MultipleObjectsReturned, logged w (QGetKey key))
  /\ store (logged w (QGetKey key)) = store w.
Proof.
  intros Hre Hf. split; [|reflexivity].
  unfold activate_user. rewrite Hre.
  pose proof (lookup_run key e w) as Hl. rewrite Hf in Hl.
  rewrite (bind_Raise _ _ _ _ _ _ Hl). reflexivity.
Qed.

(** ** More on the purge *)

Lemma activate_user_ambiguous_key_witness :
  re_search SHA1_RE sample_key = true
  /\ List.length (filter (has_key sample_key) (profiles (store twins_world)))
     = 2%nat
  /\ activate_user sample_key None (sample_env 7 0) twins_world
     = (Raise MultipleObjectsReturned, logged twins_world (QGetKey sample_key)).
Proof.
  split; [reflexivity|]. split; [reflexivity|].
  apply (activate_user_ambiguous_key sample_key None (sample_env 7 0)
           twins_world alice_profile (mkProfile 2 2 sample_key) []);
    reflexivity.
Defined.

Lemma delete_expired_users_run (e : Env) (w : World) :
  store_ok (store w) = true ->
  no_overflow e (store w) = true ->
  delete_expired_users e w
  = (Ret tt,
     mkWorld (mkStore (kept_users e w) (kept_profiles e w))
             (queries w ++ [QAll]) (outbox w)).
Proof.
  intros Hok Hno. pose proof (store_ok_users _ Hok) as Hnd.
  pose proof (store_ok_one_to_one _ Hok) as H11.
  assert (Hfk : forall p, In p (profiles (store w)) ->
                  existsb (has_id (profile_user_id p)) (users (store w)) = true).
  { intros p Hp. destruct (store_ok_elim _ Hok p Hp) as [u [Hu Hid]].
    apply existsb_exists. exists u. split; [assumption|].
    apply Nat.eqb_eq. exact Hid. }
  unfold delete_expired_users.
  assert (Hall : all_profiles e w = (Ret (profiles (store w)), logged w QAll))
    by reflexivity.
  rewrite (bind_Ret _ _ _ _ _ _ Hall).
  rewrite (delete_expired_loop_run e (profiles (store w)) (logged w QAll)
             Hnd H11 Hfk (fun p u Hp Hu Hid => no_overflow_elim e _ p u Hno Hp Hu Hid)).
  cbn [logged store queries outbox]. unfold kept_users, kept_profiles.
  f_equal. f_equal. f_equal.
  - apply filter_ext_in. intros x Hx. rewrite purged_doomed; auto.
  - apply filter_ext_in. intros q _. f_equal. apply existsb_ext_in.
    intros x Hx. rewrite purged_doomed; auto.
Qed.

Lemma kept_profile_has_kept_user (e : Env) (w : World) p :
  store_ok (store w) = true ->
  In p (kept_profiles e w) ->
  exists u, In u (kept_users e w) /\ user_id u = profile_user_id p.
Proof.
  intros Hok Hp. unfold kept_profiles in Hp. apply filter_In in Hp.
  destruct Hp as [Hp Hkeep]. apply negb_true_iff in Hkeep.
  destruct (store_ok_elim _ Hok p Hp) as [u [Hu Hid]].
  exists u. split; [|assumption].
  apply filter_In. split; [assumption|].
  destruct (purged e w u) eqn:Hpu; [|reflexivity].
  assert (Hex : existsb (fun x => has_id (profile_user_id p) x && purged e w x)
                        (users (store w)) = true).
  { apply existsb_exists. exists u. split; [assumption|].
    unfold has_id. rewrite Hid, Nat.eqb_refl, Hpu. reflexivity. }
  congruence.
Qed.

Lemma purge_keeps_constraints (e : Env) (w : World) :
  store_ok (store w) = true ->
  store_ok (mkStore (kept_users e w) (kept_profiles e w)) = true.
Proof.
  intros Hok. apply store_ok_intro; cbn [users profiles].
  - apply NoDup_map_filter, store_ok_users; assumption.
  - apply NoDup_map_filter, store_ok_profiles; assumption.
  - apply NoDup_map_filter, store_ok_one_to_one; assumption.
  - intros p Hp. apply kept_profile_has_kept_user; assumption.
Qed.

Lemma no_overflow_incl (e : Env) (s s' : Store) :
  incl (users s') (users s) ->
  incl (profiles s') (profiles s) ->
  no_overflow e s = true ->
  no_overflow e s' = true.
Proof.
  unfold no_overflow. intros Hu Hp H.
  apply forallb_forall. intros p Hpin. apply forallb_forall. intros u Huin.
  rewrite forallb_forall in H. specialize (H p (Hp p Hpin)).
  rewrite forallb_forall in H. exact (H u (Hu u Huin)).
Qed.

Lemma purge_keeps_no_overflow (e : Env) (w : World) :
  no_overflow e (store w) = true ->
  no_overflow e (mkStore (kept_users e w) (kept_profiles e w)) = true.
Proof.
  apply no_overflow_incl; cbn [users profiles];
    unfold kept_users, kept_profiles; apply incl_filter.
Qed.

(** X8. On a database whose expiry checks raise no [OverflowError],
    [delete_expired_users] keeps the schema constraints, and at one
    clock reading it is idempotent: a second run right after the first
    deletes nothing more. *)
Theorem delete_expired_users_idempotent (e : Env) (w : World) :
  store_ok (store w) = true ->
  no_overflow e (store w) = true ->
  exists w1 w2,
    delete_expired_users e w = (Ret tt, w1)
    /\ store_ok (store w1) = true
    /\ delete_expired_users e w1 = (Ret tt, w2)
    /\ store w2 = store w1.
Proof.
  intros Hok Hno. pose proof (purge_keeps_constraints e w Hok) as Hok1.
  pose proof (purge_keeps_no_overflow e w Hno) as Hno1.
  set (w1 := mkWorld (mkStore (kept_users e w) (kept_profiles e w))
                     (queries w ++ [QAll]) (outbox w)).
  exists w1. eexists. split; [apply delete_expired_users_run; assumption|].
  split; [exact Hok1|].
  split; [apply (delete_expired_users_run e w1); [exact Hok1|exact Hno1]|].
  cbn [store].
  assert (Hclean : forall x, In x (kept_users e w) -> purged e w1 x = false).
  { intros x Hx. unfold kept_users in Hx. apply filter_In in Hx.
    destruct Hx as [Hx Hkeep]. apply negb_true_iff in Hkeep.
    unfold purged in *. destruct (is_active x); [reflexivity|].
    cbn [negb andb] in *.
    destruct (existsb _ (profiles (store w1))) eqn:Hex; [|reflexivity].
    exfalso. apply existsb_exists in Hex. destruct Hex as [p [Hp Hpe]].
    apply andb_true_iff in Hpe. destruct Hpe as [Hpu Hpx].
    cbn [w1 store profiles] in Hp. unfold kept_profiles in Hp.
    apply filter_In in Hp. destruct Hp as [Hp _].
    assert (Hid : profile_user_id p = user_id x)
      by (apply Nat.eqb_eq; exact Hpu).
    assert (Hx1 : In x (users (store w1))).
    { cbn [w1 store users]. apply filter_In. split; [assumption|].
      apply negb_true_iff. unfold purged.
      destruct (is_active x); [reflexivity | exact Hkeep]. }
    assert (Hrep : representable e x p = true)
      by (apply (no_overflow_elim e (store w)); auto).
    rewrite (is_expired_of_account e w1 x p
               (store_ok_users _ Hok1) Hx1 Hid Hrep) in Hpx.
    rewrite <- (is_expired_of_account e w x p
                  (store_ok_users _ Hok) Hx Hid Hrep) in Hpx.
    assert (Ht : existsb (fun p0 => has_user (user_id x) p0
                                    && is_expired e w p0)
                         (profiles (store w)) = true).
    { apply existsb_exists. exists p. split; [assumption|].
      rewrite Hpu, Hpx. reflexivity. }
    congruence. }
  unfold kept_users at 1, kept_profiles at 1. cbn [w1 store users profiles].
  rewrite !filter_all; [reflexivity | |].
  - intros p _. apply negb_true_iff.
    rewrite (existsb_ext_in _ (fun _ => false)); [apply existsb_never|].
    intros x Hx. rewrite (Hclean x Hx). apply andb_false_r.
  - intros x Hx. rewrite (Hclean x Hx). reflexivity.
Qed.

Lemma delete_expired_users_idempotent_witness :
  store_ok (store three_accounts) = true
  /\ no_overflow (sample_env 7 (7 * microseconds_per_day))
       (store three_accounts) = true
  /\ exists w1 w2,
       delete_expired_users (sample_env 7 (7 * microseconds_per_day))
         three_accounts = (Ret tt, w1)
       /\ delete_expired_users (sample_env 7 (7 * microseconds_per_day)) w1
          = (Ret tt, w2)
       /\ store w2 = store w1.
Proof.
  split; [reflexivity|]. split; [reflexivity|].
  destruct (delete_expired_users_idempotent
              (sample_env 7 (7 * microseconds_per_day)) three_accounts
              eq_refl eq_refl)
    as [w1 [w2 [H1 [_ [H2 H3]]]]].
  exists w1, w2. auto.
Defined.

Lemma kept_profile_of_kept_user (e : Env) (w : World) u p :
  store_ok (store w) = true ->
  In u (users (store w)) -> In p (profiles (store w)) ->
  profile_user_id p = user_id u ->
  purged e w u = false ->
  In p (kept_profiles e w).
Proof.
  intros Hok Hu Hp Hid Hpu. apply filter_In. split; [assumption|].
  apply negb_true_iff.
  rewrite (existsb_ext_in _ (fun _ => false)); [apply existsb_never|].
  intros x Hx. unfold has_id.
  destruct (Nat.eqb (user_id x) (profile_user_id p)) eqn:E; [|reflexivity].
  apply Nat.eqb_eq in E.
  assert (x = u) as ->
    by (apply (same_id_same_user (users (store w)));
        auto using store_ok_users; congruence).
  rewrite Hpu. reflexivity.
Qed.

(** X9. What [delete_expired_users] never deletes, on a database whose
    expiry checks raise no [OverflowError]: an account that has no
    registration record, and an account (with its record) whose record
    is pending and not yet expired; with a window of zero or less this
    is every account with a pending record, however old. *)
Theorem delete_expired_users_spares (e : Env) (w : World) :
  store_ok (store w) = true ->
  no_overflow e (store w) = true ->
  exists w',
    delete_expired_users e w = (Ret tt, w')
    /\ (forall u,
          In u (users (store w)) ->
          (forall p, In p (profiles (store w)) ->
                     profile_user_id p <> user_id u) ->
          In u (users (store w')))
    /\ (forall u p,
          In u (users (store w)) -> In p (profiles (store w)) ->
          profile_user_id p = user_id u ->
          activation_key p <> ACTIVATED ->
          ACCOUNT_ACTIVATION_DAYS (settings e) <= 0
          \/ now e < date_joined u
                     + ACCOUNT_ACTIVATION_DAYS (settings e)
                       * microseconds_per_day ->
          In u (users (store w')) /\ In p (profiles (store w'))).
Proof.
  intros Hok Hno. eexists.
  split; [apply delete_expired_users_run; assumption|].
  cbn [store users profiles]. split.
  - intros u Hu Hnone. apply filter_In. split; [assumption|].
    apply negb_true_iff. unfold purged.
    rewrite (existsb_ext_in _ (fun _ => false)).
    + rewrite existsb_never. apply andb_false_r.
    + intros p Hp. unfold has_user.
      rewrite (proj2 (Nat.eqb_neq _ _) (Hnone p Hp)). reflexivity.
  - intros u p Hu Hp Hid Hkey Hfresh.
    assert (Hnot : expired_at e u p = false).
    { unfold expired_at. rewrite (proj2 (text_eqb_neq _ _) Hkey). cbn [orb].
      destruct Hfresh as [Hd | Hn].
      - rewrite (proj2 (Z.ltb_ge _ _) Hd). reflexivity.
      - rewrite (proj2 (Z.leb_gt _ _) Hn). apply andb_false_r. }
    assert (Hpu : purged e w u = false).
    { unfold purged. rewrite (existsb_ext_in _ (fun _ => false)).
      - rewrite existsb_never. apply andb_false_r.
      - intros q Hq. unfold has_user.
        destruct (Nat.eqb (profile_user_id q) (user_id u)) eqn:E;
          [|reflexivity].
        apply Nat.eqb_eq in E.
        assert (q = p) as ->
          by (apply (same_key_same_row profile_user_id (profiles (store w)));
              auto using store_ok_one_to_one; congruence).
        rewrite (is_expired_of_account e w u p);
          auto using store_ok_users.
        apply (no_overflow_elim e (store w)); auto. }
    split.
    + apply filter_In. split; [assumption|]. rewrite Hpu. reflexivity.
    + apply (kept_profile_of_kept_user e w u p); assumption.
Qed.

Lemma delete_expired_users_spares_witness :
  store_ok (store unregistered_world) = true
  /\ no_overflow (sample_env 7 (10000 * microseconds_per_day))
       (store unregistered_world) = true
  /\ exists w',
       delete_expired_users (sample_env 7 (10000 * microseconds_per_day))
         unregistered_world = (Ret tt, w')
       /\ In alice (users (store w')).
Proof.
  split; [reflexivity|]. split; [reflexivity|].
  destruct (delete_expired_users_spares
              (sample_env 7 (10000 * microseconds_per_day))
              unregistered_world eq_refl eq_refl) as [w' [Hrun [Hnone _]]].
  exists w'. split; [exact Hrun|].
  apply Hnone; [left; reflexivity | intros p []].
Defined.

(** ** More on the activation mail *)

Lemma dict_get_set_same (k : string) (v : ctx_value) (d : context) :
  dict_get k (dict_set k v d) = Some v.
Proof.
  induction d as [|[k' v'] d IH]; simpl.
  - rewrite String.eqb_refl. reflexivity.
  - destruct (String.eqb k' k) eqn:E; simpl.
    + rewrite String.eqb_refl. reflexivity.
    + rewrite E. exact IH.
Qed.

Lemma dict_get_set_other (k k' : string) (v : ctx_value) (d : context) :
  k <> k' -> dict_get k (dict_set k' v d) = dict_get k d.
Proof.
  intros Hne. induction d as [|[k0 v0] d IH]; simpl.
  - rewrite (proj2 (String.eqb_neq k' k)); [reflexivity | congruence].
  - destruct (String.eqb k0 k') eqn:E; simpl.
    + apply String.eqb_eq in E. subst k0.
      rewrite (proj2 (String.eqb_neq k' k)); [reflexivity | congruence].
    + rewrite IH. reflexivity.
Qed.

Section MailerDetails.

Variable render_to_string : text -> context -> text.
Variable current_site : Site.

(** X10. [send_activation_email] needs both rows: for a user name that
    no account has it raises [DoesNotExist] before any query on the
    records, and for an account without a registration record it raises
    [DoesNotExist] at [get(user=...)]; in both cases no mail is sent and
    the database is untouched. *)
Theorem send_activation_email_missing_rows name extra mail tb ts e w :
  (filter (has_username name) (users (store w)) = [] ->
   send_activation_email render_to_string current_site name extra mail tb ts
     e w = (Raise DoesNotExist, w))
  /\ (forall user,
        filter (has_username name) (users (store w)) = [user] ->
        filter (has_user (user_id user)) (profiles (store w)) = [] ->
        send_activation_email render_to_string current_site name extra mail
          tb ts e w
        = (Raise DoesNotExist, logged w (QGetUser (user_id user)))
        /\ outbox (logged w (QGetUser (user_id user))) = outbox w
        /\ store (logged w (QGetUser (user_id user))) = store w).
Proof.
  split.
  - intros Hu. unfold send_activation_email.
    erewrite bind_Raise by (rewrite get_user_by_name_run, Hu; reflexivity).
    reflexivity.
  - intros user Hu Hp. split; [|split; reflexivity].
    unfold send_activation_email.
    erewrite bind_Ret by (rewrite get_user_by_name_run, Hu; reflexivity).
    erewrite bind_Raise by (rewrite get_by_user_run, Hp; reflexivity).
    reflexivity.
Qed.

(** X11. When the resolved address is not blank,
    [send_activation_email] sends exactly one mail: from
    [DEFAULT_FROM_EMAIL]; to the [email] argument alone when that is
    given and not blank after stripping, and to the account's address
    alone when the argument is [None] or blank; with the body template rendered in a context where
    [activation_key], [expiration_days], [username], [user] and [site]
    are the record's key, the configured window, the user name, the
    account and the site, whatever [extra_mail_context] held under those
    names; every other entry of [extra_mail_context] is passed on. *)
Theorem send_activation_email_mail_content
    name extra mail tb ts e w user profile :
  filter (has_username name) (users (store w)) = [user] ->
  filter (has_user (user_id user)) (profiles (store w)) = [profile] ->
  strip (resolve_email mail user) <> [] ->
  exists m ctx,
    send_activation_email render_to_string current_site name extra mail tb ts
      e w
    = (Ret tt,
       mkWorld (store w) (queries w ++ [QGetUser (user_id user)])
               (outbox w ++ [m]))
    /\ mail_from m = DEFAULT_FROM_EMAIL (settings e)
    /\ (forall given,
          mail = Some given -> strip given <> [] -> mail_to m = [given])
    /\ (mail = None \/ (exists given, mail = Some given /\ strip given = []) ->
        mail_to m = [email user])
    /\ mail_message m
       = render_to_string (template_or tb default_template_body) ctx
    /\ dict_get "activation_key" ctx = Some (VText (activation_key profile))
    /\ dict_get "expiration_days" ctx
       = Some (VInt (ACCOUNT_ACTIVATION_DAYS (settings e)))
    /\ dict_get "username" ctx = Some (VText name)
    /\ dict_get "user" ctx = Some (VUser user)
    /\ dict_get "site" ctx = Some (VSite current_site)
    /\ forall k d,
         extra = Some d ->
         ~ In k ["site"; "user"; "username"; "activation_key";
                 "expiration_days"]%string ->
         dict_get k ctx = dict_get k d.
Proof.
  intros Hu Hp Hto.
  pose proof (send_activation_email_sends render_to_string current_site
                name extra mail tb ts e w user profile Hu Hp) as Hrun.
  destruct (strip (resolve_email mail user)) eqn:Hs; [contradiction|].
  eexists. exists (body_context current_site extra user name
                     (activation_key profile)
                     (ACCOUNT_ACTIVATION_DAYS (settings e))).
  split; [exact Hrun|]. cbn [mail_from mail_to mail_message].
  split; [reflexivity|]. split.
  { intros given -> Hgiven. unfold resolve_email.
    destruct (strip given); [contradiction | reflexivity]. }
  split.
  { intros [-> | [given [-> Hblank]]]; unfold resolve_email;
      [|rewrite Hblank]; reflexivity. }
  split; [reflexivity|].
  unfold body_context, subject_context, dict_update. cbn [fold_left fst snd].
  split; [|split; [|split; [|split; [|split]]]].
  - rewrite dict_get_set_other by discriminate.
    rewrite dict_get_set_other by discriminate.
    apply dict_get_set_same.
  - rewrite dict_get_set_other by discriminate. apply dict_get_set_same.
  - do 3 (rewrite dict_get_set_other by discriminate).
    apply dict_get_set_same.
  - do 4 (rewrite dict_get_set_other by discriminate).
    apply dict_get_set_same.
  - apply dict_get_set_same.
  - intros k d -> Hk.
    repeat (rewrite dict_get_set_other;
            [|intros ->; apply Hk; simpl; tauto]).
    reflexivity.
Qed.

End MailerDetails.

Lemma send_activation_email_missing_rows_witness :
  send_activation_email two_lines example_site (codes "nobody") None None
    None None (sample_env 7 0) sample_world
  = (Raise DoesNotExist, sample_world)
  /\ send_activation_email two_lines example_site (codes "alice") None None
       None None (sample_env 7 0) unregistered_world
     = (Raise DoesNotExist, logged unregistered_world (QGetUser 1)).
Proof.
  split.
  - apply (proj1 (send_activation_email_missing_rows two_lines example_site
                    (codes "nobody") None None None None (sample_env 7 0)
                    sample_world)).
    reflexivity.
  - apply (proj2 (send_activation_email_missing_rows two_lines example_site
                    (codes "alice") None None None None (sample_env 7 0)
                    unregistered_world) alice); reflexivity.
Defined.

Lemma send_activation_email_mail_content_witness :
  strip (resolve_email (Some (codes "b@work.example")) bob) <> []
  /\ (exists m,
        outbox (snd (send_activation_email two_lines example_site
                       (codes "bob")
                       (Some [("activation_key"%string, VInt 0)])
                       (Some (codes "b@work.example")) None None
                       (sample_env 7 0) three_accounts)) = [m]
        /\ mail_to m = [codes "b@work.example"])
  /\ strip (resolve_email (Some (codes " ")) bob) <> []
  /\ exists m,
       outbox (snd (send_activation_email two_lines example_site (codes "bob")
                      (Some [("activation_key"%string, VInt 0)])
                      (Some (codes " ")) None None (sample_env 7 0)
                      three_accounts)) = [m]
       /\ mail_to m = [codes "bob@example.com"].
Proof.
  split; [discriminate|]. split; [|split; [discriminate|]].
  - destruct (send_activation_email_mail_content two_lines example_site
                (codes "bob") (Some [("activation_key"%string, VInt 0)])
                (Some (codes "b@work.example")) None None (sample_env 7 0)
                three_accounts bob (mkProfile 2 2 bob_key) eq_refl eq_refl
                ltac:(discriminate))
      as [m [ctx [Hrun [_ [Hgiven _]]]]].
    exists m. rewrite Hrun. split; [reflexivity|].
    apply (Hgiven _ eq_refl). discriminate.
  - destruct (send_activation_email_mail_content two_lines example_site
                (codes "bob") (Some [("activation_key"%string, VInt 0)])
                (Some (codes " ")) None None (sample_env 7 0) three_accounts
                bob (mkProfile 2 2 bob_key) eq_refl eq_refl
                ltac:(discriminate))
      as [m [ctx [Hrun [_ [_ [Hblank _]]]]]].
    exists m. rewrite Hrun. split; [reflexivity|].
    apply Hblank. right. exists (codes " "). split; reflexivity.
Defined.

(** ** More on the authentication backend *)

(** X12. [authenticate] only reads: whatever it returns or raises, the
    database and the outbox are as before; and without a key it returns
    [None] without sending a query. *)
Theorem authenticate_only_reads (key : option text) e w o w' :
  authenticate key e w = (o, w') ->
  store w' = store w
  /\ outbox w' = outbox w
  /\ (key = None -> o = Ret None /\ w' = w).
Proof.
  destruct key as [k|].
  - unfold authenticate. intros H.
    rewrite (bind_Ret _ _ _ _ _ _ (filter_by_key_run k e w)) in H.
    destruct (filter (has_key k) (profiles (store w))) as [|p rest].
    + injection H as <- <-. repeat split; discriminate.
    + cbn [List.length Nat.eqb] in H. unfold bind in H.
      destruct (profile_user p e (logged w (QFilterKey k))) as [[u | x] w1]
        eqn:Hu; apply profile_user_pure in Hu; subst w1;
        injection H as <- <-; repeat split; discriminate.
  - intros [= <- <-]. auto.
Qed.

Lemma authenticate_only_reads_witness :
  exists o w',
    authenticate (Some sample_key) (sample_env 7 0) sample_world = (o, w')
    /\ store w' = store sample_world.
Proof.
  destruct (authenticate (Some sample_key) (sample_env 7 0) sample_world)
    as [o w'] eqn:Hrun.
  exists o, w'. split; [reflexivity|].
  apply (authenticate_only_reads (Some sample_key) (sample_env 7 0)
           sample_world o w' Hrun).
Defined.

Lemma find_filter_singleton {A} (f : A -> bool) (l : list A) (x : A) :
  filter f l = [x] -> find f l = Some x.
Proof. intros H. rewrite <- filter_head_find, H. reflexivity. Qed.

Lemma find_filter_nil {A} (f : A -> bool) (l : list A) :
  filter f l = [] -> find f l = None.
Proof. intros H. rewrite <- filter_head_find, H. reflexivity. Qed.

Lemma authenticate_found (key : text) e w p u :
  filter (has_key key) (profiles (store w)) = [p] ->
  filter (has_id (profile_user_id p)) (users (store w)) = [u] ->
  authenticate (Some key) e w = (Ret (Some u), logged w (QFilterKey key)).
Proof.
  intros Hf Hfk. unfold authenticate.
  rewrite (bind_Ret _ _ _ _ _ _ (filter_by_key_run key e w)), Hf.
  cbn [List.length Nat.eqb].
  rewrite (bind_Ret _ _ _ _ _ _
             (profile_user_resolves p u e (logged w (QFilterKey key)) Hfk)).
  reflexivity.
Qed.

Lemma authenticate_not_found (key : text) e w :
  filter (has_key key) (profiles (store w)) = [] ->
  authenticate (Some key) e w = (Ret None, logged w (QFilterKey key)).
Proof.
  intros Hf. unfold authenticate.
  rewrite (bind_Ret _ _ _ _ _ _ (filter_by_key_run key e w)), Hf.
  reflexivity.
Qed.

(** X13. A pending key authenticates its account although the account
    is still inactive, and stops doing so once [activate_user] has
    consumed it: after the activation (of a record whose deadline is a
    representable date and has not passed) [authenticate] returns [None]
    for that key. *)
Theorem authenticate_before_and_after_activation
    (key : text) (cb : option callback) e e' w p u o w' :
  store_ok (store w) = true ->
  quiet cb ->
  re_search SHA1_RE key = true ->
  filter (has_key key) (profiles (store w)) = [p] ->
  filter (has_id (profile_user_id p)) (users (store w)) = [u] ->
  representable e u p = true ->
  expired_at e u p = false ->
  activate_user key cb e w = (o, w') ->
  authenticate (Some key) e' w = (Ret (Some u), logged w (QFilterKey key))
  /\ o = Ret (Activated (set_is_active u true))
  /\ authenticate (Some key) e' w' = (Ret None, logged w' (QFilterKey key)).
Proof.
  intros Hok Hq Hre Hf Hfk Hrep Hfresh Hrun.
  split; [apply (authenticate_found key e' w p u); assumption|].
  rewrite (activate_user_success key cb e w p u Hok Hre Hf Hfk) in Hrun.
  - destruct (quiet_callback_run cb _ e _ o w' Hq Hrun) as [-> Hs].
    split; [reflexivity|]. apply authenticate_not_found.
    rewrite Hs. cbn [store].
    apply token_gone_after_activation; auto using store_ok_profiles.
  - rewrite (activation_key_expired_run p u); [|exact Hfk|exact Hrep].
    rewrite Hfresh. reflexivity.
Qed.

Lemma authenticate_before_and_after_activation_witness :
  is_active alice = false
  /\ authenticate (Some sample_key) (sample_env 7 0) sample_world
     = (Ret (Some alice), logged sample_world (QFilterKey sample_key))
  /\ exists w',
       activate_user sample_key None (sample_env 7 0) sample_world
       = (Ret (Activated (set_is_active alice true)), w')
       /\ authenticate (Some sample_key) (sample_env 7 0) w'
          = (Ret None, logged w' (QFilterKey sample_key)).
Proof.
  split; [reflexivity|].
  destruct (activate_user sample_key None (sample_env 7 0) sample_world)
    as [o w'] eqn:Hrun.
  destruct (authenticate_before_and_after_activation sample_key None
              (sample_env 7 0) (sample_env 7 0) sample_world alice_profile
              alice o w' eq_refl quiet_None eq_refl eq_refl eq_refl eq_refl
              eq_refl Hrun) as [Hbefore [-> Hafter]].
  split; [exact Hbefore|]. exists w'. split; [reflexivity | exact Hafter].
Defined.

(** ** The forms *)

Lemma split_from_cons (sep : N) (a piece rest : text) :
  ~ In sep a ->
  split_from sep piece (a ++ sep :: rest)
  = (rev piece ++ a) :: split_from sep [] rest.
Proof.
  revert piece; induction a as [|c a IH]; intros piece Ha.
  - cbn [app split_from]. rewrite N.eqb_refl, app_nil_r. reflexivity.
  - cbn [app split_from].
    assert (Hc : N.eqb c sep = false).
    { apply N.eqb_neq. intros ->. apply Ha. left. reflexivity. }
    rewrite Hc, IH by (intros H; apply Ha; right; exact H).
    cbn [rev]. rewrite <- app_assoc. reflexivity.
Qed.

Lemma split_from_whole (sep : N) (a piece : text) :
  ~ In sep a -> split_from sep piece a = [rev piece ++ a].
Proof.
  revert piece; induction a as [|c a IH]; intros piece Ha.
  - cbn [split_from]. rewrite app_nil_r. reflexivity.
  - cbn [split_from].
    assert (Hc : N.eqb c sep = false).
    { apply N.eqb_neq. intros ->. apply Ha. left. reflexivity. }
    rewrite Hc, IH by (intros H; apply Ha; right; exact H).
    cbn [rev]. rewrite <- app_assoc. reflexivity.
Qed.

Lemma split_head_no_sep (sep : N) (s piece : text) :
  ~ In sep piece -> ~ In sep (hd [] (split_from sep piece s)).
Proof.
  revert piece; induction s as [|c s IH]; intros piece Hp.
  - cbn [split_from hd]. rewrite <- in_rev. exact Hp.
  - cbn [split_from]. destruct (N.eqb c sep) eqn:E.
    + cbn [hd]. rewrite <- in_rev. exact Hp.
    + apply IH. intros [-> | H]; [|contradiction].
      rewrite N.eqb_refl in E. discriminate.
Qed.

Lemma In_firstn {A} (n : nat) (l : list A) (x : A) :
  In x (firstn n l) -> In x l.
Proof.
  intros H. rewrite <- (firstn_skipn n l). apply in_or_app. left. exact H.
Qed.

(** X14. [clean_username] returns the name exactly when no account has
    it, compared as the database compares [__iexact]; with one such
    account it raises [ValidationError]; with two or more (two accounts
    whose names differ only by case) [get] raises
    [MultipleObjectsReturned], which the method does not catch, instead
    of a validation error. *)
Theorem clean_username_outcomes
    (iexact : text -> text -> bool) (s : Store) (name : text) :
  let same := filter (fun u => iexact (username u) name) (users s) in
  (same = [] <-> clean_username iexact s name = Cleaned name)
  /\ (List.length same = 1%nat <->
      exists m, clean_username iexact s name = ValidationError m)
  /\ ((2 <= List.length same)%nat <->
      clean_username iexact s name = Passed MultipleObjectsReturned)
  /\ ((forall a, iexact a a = true) ->
      clean_username iexact s name = Cleaned name ->
      existsb (has_username name) (users s) = false).
Proof.
  intros same. unfold clean_username. fold same.
  split; [|split; [|split]].
  - destruct same as [|a [|b rest]]; split; intros H;
      try reflexivity; discriminate.
  - destruct same as [|a [|b rest]]; split; intros H;
      try discriminate; try (eexists; reflexivity); try reflexivity;
      destruct H as [m H]; discriminate.
  - destruct same as [|a [|b rest]]; split; intros H;
      try discriminate; try reflexivity; simpl in *; lia.
  - intros Hrefl H.
    assert (Hnil : same = [])
      by (destruct same as [|a [|b rest]]; [reflexivity | discriminate..]).
    destruct (existsb (has_username name) (users s)) eqn:E; [|reflexivity].
    apply existsb_exists in E. destruct E as [u [Hu Hn]].
    unfold has_username in Hn. apply text_eqb_eq in Hn.
    assert (Hin : In u same).
    { apply filter_In. split; [assumption|]. rewrite Hn. apply Hrefl. }
    rewrite Hnil in Hin. destruct Hin.
Qed.

(** X15. The user name [SimpleRegistrationForm.save] derives from the
    address, when the derivation ends: it is the part of the address
    before the first [@] cut to 28 characters, or that followed by the
    digit 1; it contains no [@], has at most 29 characters and is not
    taken. The derivation ends as soon as one of these two names is
    free. *)
Theorem derived_username_is_free
    (iexact : text -> text -> bool) (s : Store) (mail : text) :
  let base := firstn 28 (hd [] (split AT_SIGN mail)) in
  (forall fuel name,
     derive_username iexact fuel s mail = Some name ->
     (name = base \/ name = base ++ codes "1")
     /\ username_taken iexact s name = false
     /\ ~ In AT_SIGN name
     /\ (List.length name <= 29)%nat)
  /\ (username_taken iexact s base = false ->
      forall fuel, derive_username iexact fuel s mail = Some base)
  /\ (username_taken iexact s base = true ->
      username_taken iexact s (base ++ codes "1") = false ->
      forall fuel, derive_username iexact (S fuel) s mail
                   = Some (base ++ codes "1")).
Proof.
  intros base.
  assert (Hbase : ~ In AT_SIGN base).
  { unfold base, split. intros H. apply In_firstn in H. revert H.
    apply split_head_no_sep. intros []. }
  assert (Hlen : (List.length base <= 28)%nat)
    by (unfold base; apply firstn_le_length).
  assert (Hloop : forall fuel counter nu name,
            username_loop iexact fuel s base counter (base ++ codes "1") nu
            = Some name ->
            name = base ++ codes "1"
            /\ username_taken iexact s name = false).
  { induction fuel as [|fuel IH]; intros counter nu name H; [discriminate|].
    cbn [username_loop] in H.
    destruct (username_taken iexact s (base ++ codes "1")) eqn:E.
    - apply IH in H. exact H.
    - injection H as <-. auto. }
  split; [|split].
  - intros fuel name H. unfold derive_username in H. fold base in H.
    destruct (username_taken iexact s base) eqn:E.
    + change (format_si base 1) with (base ++ codes "1") in H.
      apply Hloop in H. destruct H as [-> Hfree].
      split; [right; reflexivity|]. split; [assumption|]. split.
      * intros Hin. apply in_app_or in Hin.
        destruct Hin as [Hin | [Hin | []]]; [contradiction | discriminate].
      * rewrite length_app. simpl. lia.
    + injection H as <-. split; [left; reflexivity|].
      split; [assumption|]. split; [assumption | lia].
  - intros Hfree fuel. unfold derive_username. fold base.
    rewrite Hfree. reflexivity.
  - intros Htaken Hfree fuel. unfold derive_username. fold base.
    rewrite Htaken. change (format_si base 1) with (base ++ codes "1").
    cbn [username_loop]. rewrite Hfree. reflexivity.
Qed.

(** X16. When both the derived name and the derived name followed by 1
    are taken, the loop of [SimpleRegistrationForm.save] never ends: its
    body assigns [newusername] while its test reads [new_username], so
    the test is the same at every turn. *)
Theorem derived_username_loop_never_ends
    (iexact : text -> text -> bool) (s : Store) (mail : text) :
  let base := firstn 28 (hd [] (split AT_SIGN mail)) in
  username_taken iexact s base = true ->
  username_taken iexact s (base ++ codes "1") = true ->
  forall fuel, derive_username iexact fuel s mail = None.
Proof.
  intros base Hbase Hone fuel. unfold derive_username. fold base.
  rewrite Hbase. change (format_si base 1) with (base ++ codes "1").
  assert (Hloop : forall n counter nu,
            username_loop iexact n s base counter (base ++ codes "1") nu
            = None).
  { induction n as [|n IH]; intros counter nu; [reflexivity|].
    cbn [username_loop]. rewrite Hone. apply IH. }
  apply Hloop.
Qed.

(** X17. [RegistrationFormNoFreeEmail.clean_email] looks only at the
    text between the first and the second [@] of the address, and
    compares it exactly with the listed domains: an address without [@]
    makes it raise [IndexError]; otherwise it raises [ValidationError]
    if that text is one of [bad_domains] and returns the address
    unchanged if not. *)
Theorem clean_email_no_free_checks_second_piece (mail : text) :
  (~ In AT_SIGN mail -> clean_email_no_free mail = Passed IndexError)
  /\ (forall local domain tail,
        mail = local ++ AT_SIGN :: domain ++ tail ->
        ~ In AT_SIGN local -> ~ In AT_SIGN domain ->
        tail = [] \/ (exists t, tail = AT_SIGN :: t) ->
        (In domain bad_domains ->
         exists m, clean_email_no_free mail = ValidationError m)
        /\ (~ In domain bad_domains ->
            clean_email_no_free mail = Cleaned mail)).
Proof.
  split.
  - intros H. unfold clean_email_no_free, split.
    rewrite (split_from_whole AT_SIGN mail [] H). reflexivity.
  - intros local domain tail Hmail Hl Hd Htail.
    assert (Hsplit : exists rest,
               split AT_SIGN mail = local :: domain :: rest).
    { unfold split. rewrite Hmail, (split_from_cons AT_SIGN local [] _ Hl).
      cbn [rev app]. destruct Htail as [-> | [t ->]].
      - rewrite app_nil_r, (split_from_whole AT_SIGN domain [] Hd).
        exists []. reflexivity.
      - rewrite (split_from_cons AT_SIGN domain [] t Hd).
        eexists. reflexivity. }
    destruct Hsplit as [rest Hsplit].
    unfold clean_email_no_free. rewrite Hsplit.
    split; intros Hin.
    + assert (Hex : existsb (text_eqb domain) bad_domains = true).
      { apply existsb_exists. exists domain. split; [assumption|].
        apply text_eqb_refl. }
      rewrite Hex. eexists. reflexivity.
    + assert (Hex : existsb (text_eqb domain) bad_domains = false).
      { destruct (existsb (text_eqb domain) bad_domains) eqn:E; [|reflexivity].
        apply existsb_exists in E. destruct E as [d [Hdin Heq]].
        apply text_eqb_eq in Heq. subst d. contradiction. }
      rewrite Hex. reflexivity.
Qed.

Lemma clean_username_outcomes_witness :
  clean_username iexact_ascii case_twins (codes "BOB")
  = Passed MultipleObjectsReturned
  /\ clean_username iexact_ascii case_twins (codes "carol")
     = Cleaned (codes "carol")
  /\ existsb (has_username (codes "carol")) (users case_twins) = false.
Proof.
  pose proof (clean_username_outcomes iexact_ascii case_twins (codes "BOB"))
    as [_ [_ [Hmany _]]].
  pose proof (clean_username_outcomes iexact_ascii case_twins (codes "carol"))
    as [Hnone [_ [_ Hfree]]].
  split; [apply Hmany; simpl; lia|].
  assert (Hc : clean_username iexact_ascii case_twins (codes "carol")
               = Cleaned (codes "carol")) by (apply Hnone; reflexivity).
  split; [exact Hc|]. apply Hfree; [|exact Hc].
  intros a. unfold iexact_ascii. apply text_eqb_refl.
Defined.

Lemma derived_username_is_free_witness :
  username_taken iexact_ascii (store sample_world) (codes "alice") = true
  /\ derive_username iexact_ascii 1 (store sample_world)
       (codes "Alice@example.com") = Some (codes "Alice1")
  /\ derive_username iexact_ascii 0 (store sample_world)
       (codes "bob@example.com") = Some (codes "bob").
Proof.
  split; [reflexivity|].
  pose proof (derived_username_is_free iexact_ascii (store sample_world)
                (codes "Alice@example.com")) as [_ [_ Hone]].
  pose proof (derived_username_is_free iexact_ascii (store sample_world)
                (codes "bob@example.com")) as [_ [Hbase _]].
  split.
  - apply (Hone eq_refl eq_refl 0%nat).
  - apply (Hbase eq_refl 0%nat).
Defined.

Lemma derived_username_loop_never_ends_witness :
  username_taken iexact_ascii alice_and_alice1 (codes "alice") = true
  /\ username_taken iexact_ascii alice_and_alice1 (codes "alice1") = true
  /\ forall fuel,
       derive_username iexact_ascii fuel alice_and_alice1
         (codes "alice@example.org") = None.
Proof.
  split; [reflexivity|]. split; [reflexivity|].
  apply (derived_username_loop_never_ends iexact_ascii alice_and_alice1
           (codes "alice@example.org")); reflexivity.
Defined.

Lemma clean_email_no_free_checks_second_piece_witness :
  clean_email_no_free (codes "someone") = Passed IndexError
  /\ (exists m, clean_email_no_free (codes "someone@gmail.com")
                = ValidationError m)
  /\ clean_email_no_free (codes "someone@GMAIL.COM")
     = Cleaned (codes "someone@GMAIL.COM")
  /\ clean_email_no_free (codes "someone@example.org@gmail.com")
     = Cleaned (codes "someone@example.org@gmail.com").
Proof.
  split; [|split; [|split]].
  - apply (proj1 (clean_email_no_free_checks_second_piece (codes "someone"))).
    cbv. intuition discriminate.
  - apply (proj2 (clean_email_no_free_checks_second_piece
                    (codes "someone@gmail.com"))
             (codes "someone") (codes "gmail.com") []).
    + reflexivity.
    + cbv. intuition discriminate.
    + cbv. intuition discriminate.
    + left. reflexivity.
    + cbv. tauto.
  - apply (proj2 (clean_email_no_free_checks_second_piece
                    (codes "someone@GMAIL.COM"))
             (codes "someone") (codes "GMAIL.COM") []).
    + reflexivity.
    + cbv. intuition discriminate.
    + cbv. intuition discriminate.
    + left. reflexivity.
    + cbv. intuition discriminate.
  - apply (proj2 (clean_email_no_free_checks_second_piece
                    (codes "someone@example.org@gmail.com"))
             (codes "someone") (codes "example.org") (codes "@gmail.com")).
    + reflexivity.
    + cbv. intuition discriminate.
    + cbv. intuition discriminate.
    + right. eexists. reflexivity.
    + cbv. intuition discriminate.
Defined.

(** ** The consumed flag and the callback *)

(** X18. [get_has_activated] is false for a record whose key passes the
    syntax check and true for the record of an account that
    [activate_user] has just activated; and for a record for which it is
    true the expiry check returns true at every clock reading under
    every window of at most 999999999 days, and raises [OverflowError]
    under every longer window. *)
Theorem has_activated_tracks_activation
    (key : text) (cb : option callback) e w p u o w' :
  store_ok (store w) = true ->
  quiet cb ->
  re_search SHA1_RE key = true ->
  filter (has_key key) (profiles (store w)) = [p] ->
  filter (has_id (profile_user_id p)) (users (store w)) = [u] ->
  representable e u p = true ->
  expired_at e u p = false ->
  activate_user key cb e w = (o, w') ->
  get_has_activated p = false
  /\ exists p',
       filter (has_user (user_id u)) (profiles (store w')) = [p']
       /\ profile_id p' = profile_id p
       /\ get_has_activated p' = true
       /\ forall e'' w'',
            (ACCOUNT_ACTIVATION_DAYS (settings e'') <= timedelta_max_days ->
             activation_key_expired p' e'' w'' = (Ret true, w''))
            /\ (timedelta_max_days < ACCOUNT_ACTIVATION_DAYS (settings e'') ->
                activation_key_expired p' e'' w''
                = (Raise OverflowError, w'')).
Proof.
  intros Hok Hq Hre Hf Hfk Hrep Hfresh Hrun.
  destruct (filter_has_key_In key p _ _ Hf) as [Hp Hk].
  assert (Hu : In u (filter (has_id (profile_user_id p)) (users (store w))))
    by (rewrite Hfk; left; reflexivity).
  apply filter_In in Hu. destruct Hu as [Hu Hid]. apply Nat.eqb_eq in Hid.
  split.
  { unfold get_has_activated. apply text_eqb_neq. rewrite Hk.
    apply sentinel_not_token. exact Hre. }
  rewrite (activate_user_success key cb e w p u Hok Hre Hf Hfk) in Hrun.
  - destruct (quiet_callback_run cb _ e _ o w' Hq Hrun) as [_ Hs].
    cbn [store] in Hs.
    exists (set_activation_key p ACTIVATED).
    split; [|split; [reflexivity|split; [reflexivity|]]].
    + rewrite Hs. rewrite Hid.
      change (user_id (set_is_active u true)) with (user_id u).
      change (profile_user_id p)
        with (profile_user_id (set_activation_key p ACTIVATED)).
      apply (filter_key_unique profile_user_id).
      * destruct (activated_store_ids (store w) u p) as [_ [_ H3]].
        rewrite H3. apply store_ok_one_to_one; assumption.
      * cbn [activated_store profiles]. apply in_map_iff. exists p.
        rewrite Nat.eqb_refl. auto.
    + intros e'' w''. split; intros Hd.
      * apply sentinel_always_expired; [reflexivity | exact Hd].
      * apply sentinel_window_overflow. exact Hd.
  - rewrite (activation_key_expired_run p u); [|exact Hfk|exact Hrep].
    rewrite Hfresh. reflexivity.
Qed.

Lemma has_activated_tracks_activation_witness :
  get_has_activated alice_profile = false
  /\ exists w' p',
       activate_user sample_key None (sample_env 7 0) sample_world
       = (Ret (Activated (set_is_active alice true)), w')
       /\ profiles (store w') = [p']
       /\ get_has_activated p' = true
       /\ activation_key_expired p' (sample_env 7 0) w' = (Ret true, w')
       /\ activation_key_expired p' (sample_env 1000000000 0) w'
          = (Raise OverflowError, w').
Proof.
  destruct (activate_user sample_key None (sample_env 7 0) sample_world)
    as [o w'] eqn:Hrun.
  destruct (has_activated_tracks_activation sample_key None (sample_env 7 0)
              sample_world alice_profile alice o w' eq_refl quiet_None
              eq_refl eq_refl eq_refl eq_refl eq_refl Hrun)
    as [Hbefore [p' [Hrow [_ [Hafter Hexp]]]]].
  split; [exact Hbefore|].
  injection Hrun as <- <-.
  exists (mkWorld (activated_store (store sample_world) alice alice_profile)
                  [QGetKey sample_key] []),
         p'.
  split; [reflexivity|]. split; [|split; [exact Hafter|split]].
  - injection Hrow as <-. reflexivity.
  - apply (proj1 (Hexp _ _)). discriminate.
  - apply (proj2 (Hexp _ _)). reflexivity.
Defined.

(** X19. The callback of [activate_user] is called only when the
    activation succeeds: a call that returns [False] returns [False], in
    the same world, with any other callback or with none. *)
Theorem callback_not_called_on_failure
    (key : text) (cb cb' : option callback) e w w' :
  activate_user key cb e w = (Ret PyFalse, w') ->
  activate_user key cb' e w = (Ret PyFalse, w').
Proof.
  unfold activate_user.
  destruct (re_search SHA1_RE key); [|auto].
  intros H. apply bind_Ret_inv in H. destruct H as [found [w1 [Hl H]]].
  rewrite (bind_Ret _ _ _ _ _ _ Hl).
  destruct found as [p|]; [|exact H].
  apply bind_Ret_inv in H. destruct H as [b [w2 [Hb H]]].
  rewrite (bind_Ret _ _ _ _ _ _ Hb).
  destruct b; [exact H|]. exfalso. cbn [negb] in H.
  apply bind_Ret_inv in H. destruct H as [u [w3 [_ H]]].
  apply bind_Ret_inv in H. destruct H as [? [w4 [_ H]]].
  apply bind_Ret_inv in H. destruct H as [? [w5 [_ H]]].
  apply bind_Ret_inv in H. destruct H as [? [w6 [_ H]]].
  discriminate.
Qed.

Lemma callback_not_called_on_failure_witness :
  activate_user sample_key None (sample_env 7 (7 * microseconds_per_day))
    sample_world
  = (Ret PyFalse, logged sample_world (QGetKey sample_key))
  /\ forall cb,
       activate_user sample_key cb (sample_env 7 (7 * microseconds_per_day))
         sample_world
       = (Ret PyFalse, logged sample_world (QGetKey sample_key)).
Proof.
  split; [reflexivity|]. intros cb.
  apply (callback_not_called_on_failure sample_key None cb
           (sample_env 7 (7 * microseconds_per_day)) sample_world).
  reflexivity.
Defined.
